(** * organize-crates: sharding classifier, relocator and metadata indexer

    A shallow embedding of [organize_crates.py] and [organize_metadata.py].

    Python strings are sequences of Unicode code points; the three
    character-level builtins the programs use ([str.upper], [str.isdigit],
    [str.strip]'s whitespace test) are taken as a parameter [unicode], and an
    excerpt of CPython's tables is provided for evaluation. *)

From Stdlib Require Import NArith ZArith Lia String Ascii List Bool.
From stdpp Require Import base option list gmap strings.

Local Open Scope N_scope.

(** ** Python strings *)

Module Py.

(** A [str] is a list of code points. *)
Abbreviation str := (list N).

(** An ASCII literal as a Python string. *)
Definition py (s : string) : str :=
  map N_of_ascii (list_ascii_of_string s).

(** The character tables of the interpreter. [upper c] is
    [chr(c).upper()], which may have more than one character
    (full case mapping); [isdigit c] is [chr(c).isdigit()] and
    [isspace c] is [chr(c).isspace()]. *)
Record unicode : Type := Unicode {
  upper : N -> str;
  isdigit : N -> bool;
  isspace : N -> bool
}.

(** What the tables do on ASCII, where every interpreter agrees. *)
Record ascii_faithful (U : unicode) : Prop := AsciiFaithful {
  upper_lower : forall c, 97 <= c <= 122 -> upper U c = [c - 32];
  upper_other : forall c, c < 128 -> ~ (97 <= c <= 122) -> upper U c = [c];
  isdigit_ascii : forall c, c < 128 -> isdigit U c = (48 <=? c) && (c <=? 57)
}.

(** Excerpt of CPython's tables: exact on ASCII, on Latin-1 and on the
    code points listed; the identity (resp. [false]) elsewhere. *)
Definition cpython_upper (c : N) : str :=
  if (97 <=? c) && (c <=? 122) then [c - 32]
  else if c =? 0xB5 then [0x39C]
  else if c =? 0xDF then [83; 83]
  else if (0xE0 <=? c) && (c <=? 0xFE) && negb (c =? 0xF7) then [c - 32]
  else if c =? 0xFF then [0x178]
  else if c =? 0x131 then [73]
  else if c =? 0x17F then [83]
  else if c =? 0xFB00 then [70; 70]
  else if c =? 0xFB01 then [70; 73]
  else if c =? 0xFB02 then [70; 76]
  else if c =? 0xFB03 then [70; 70; 73]
  else if c =? 0xFB04 then [70; 70; 76]
  else if c =? 0xFB05 then [83; 84]
  else if c =? 0xFB06 then [83; 84]
  else [c].

Definition cpython_isdigit (c : N) : bool :=
  (48 <=? c) && (c <=? 57)
  || (c =? 0xB2) || (c =? 0xB3) || (c =? 0xB9)
  || (0x660 <=? c) && (c <=? 0x669)
  || (0x6F0 <=? c) && (c <=? 0x6F9).

Definition cpython_isspace (c : N) : bool :=
  (9 <=? c) && (c <=? 13) || (0x1C <=? c) && (c <=? 0x20)
  || (c =? 0x85) || (c =? 0xA0) || (c =? 0x1680)
  || (0x2000 <=? c) && (c <=? 0x200A)
  || (c =? 0x2028) || (c =? 0x2029) || (c =? 0x202F)
  || (c =? 0x205F) || (c =? 0x3000).

Definition cpython : unicode :=
  Unicode cpython_upper cpython_isdigit cpython_isspace.

(** [s.startswith(p)] *)
Fixpoint startswith (s p : str) : bool :=
  match p, s with
  | [], _ => true
  | a :: p', b :: s' => (a =? b) && startswith s' p'
  | _ :: _, [] => false
  end.

(** [sub in s] for two strings: [sub] occurs in [s] as a substring. *)
Fixpoint str_in (sub s : str) : bool :=
  startswith s sub ||
  match s with
  | [] => false
  | _ :: s' => str_in sub s'
  end.

(** [x == y] on strings. *)
Definition str_eqb (x y : str) : bool := bool_decide (x = y).

(** [x in l] for a list of strings: some element equals [x]. *)
Definition list_in (x : str) (l : list str) : bool :=
  existsb (str_eqb x) l.

(** [s.isdigit()]: non-empty and every character is a digit. *)
Definition str_isdigit (U : unicode) (s : str) : bool :=
  match s with
  | [] => false
  | _ => forallb (isdigit U) s
  end.

(** [s[i:j]] for [0 <= i <= j]. *)
Definition slice (s : str) (i j : nat) : str := take (j - i) (drop i s).

(** [range(start, stop, step)] for a positive step. *)
Fixpoint range_from (fuel start stop step : nat) : list nat :=
  match fuel with
  | O => []
  | S fuel' =>
      if (start <? stop)%nat
      then start :: range_from fuel' (start + step) stop step
      else []
  end.

Definition range (start stop step : nat) : list nat :=
  range_from stop start stop step.

(** [string.ascii_uppercase] *)
Definition ascii_uppercase : str := py "ABCDEFGHIJKLMNOPQRSTUVWXYZ".

(** Exceptions the programs can raise. *)
Inductive exn : Type :=
| KeyError (key : str)
| IndexError
| AttributeError
| JSONDecodeError
| OSError.

Inductive result (A : Type) : Type :=
| Ok (a : A)
| Raise (e : exn).
Arguments Ok {A} a.
Arguments Raise {A} e.

Definition bind {A B} (m : result A) (k : A -> result B) : result B :=
  match m with
  | Ok a => k a
  | Raise e => Raise e
  end.

End Py.

Import Py.

Notation "x <-! m ; k" := (Py.bind m (fun x => k))
  (at level 100, m at next level, right associativity, only parsing).

(** ** Paths

    A path is the sequence of its components; [os.path.join] appends
    components (none of the components the programs join is absolute or
    empty) and [path_str] renders the path with the separator. *)

Abbreviation path := (list (list N)).

Definition os_path_join (p : path) (parts : list str) : path := p ++ parts.

Definition os_sep : str := py "/".

Fixpoint path_str (p : path) : str :=
  match p with
  | [] => []
  | [c] => c
  | c :: p' => c ++ os_sep ++ path_str p'
  end.

(** [os.path.basename] and [os.path.dirname] *)
Definition basename (p : path) : str := List.last p [].
Definition dirname (p : path) : path := removelast p.

(** [s.endswith(p)] *)
Definition endswith (s p : str) : bool := startswith (rev s) (rev p).

(** ** The file system

    A tree of directories and files under the file-system root; the entries
    of a directory are kept in listing order. A file holds text, or bytes
    that do not decode as UTF-8. *)

Module FS.

Inductive content : Type :=
| Text (s : str)
| Blob.

#[warnings="-register-all"]
Inductive node : Type :=
| File (c : content)
| Dir (entries : list (str * node)).

Definition is_dir_node (t : node) : bool :=
  match t with
  | Dir _ => true
  | File _ => false
  end.

Fixpoint assoc (c : str) (es : list (str * node)) : option node :=
  match es with
  | [] => None
  | (c', t) :: es' => if str_eqb c c' then Some t else assoc c es'
  end.

(** Replace the entry named [c], or add it at the end of the listing. *)
Fixpoint set_entry (c : str) (t : node) (es : list (str * node))
  : list (str * node) :=
  match es with
  | [] => [(c, t)]
  | (c', t') :: es' =>
      if str_eqb c c' then (c, t) :: es' else (c', t') :: set_entry c t es'
  end.

Definition del_entry (c : str) (es : list (str * node)) : list (str * node) :=
  List.filter (fun e => negb (str_eqb c e.1)) es.

Definition names (es : list (str * node)) : list str := map fst es.

Definition dirnames (es : list (str * node)) : list str :=
  names (List.filter (fun e => is_dir_node e.2) es).

Definition filenames (es : list (str * node)) : list str :=
  names (List.filter (fun e => negb (is_dir_node e.2)) es).

(** The node a path leads to. *)
Fixpoint lookup (p : path) (t : node) {struct p} : option node :=
  match p with
  | [] => Some t
  | c :: p' =>
      match t with
      | Dir es =>
          match assoc c es with
          | Some t' => lookup p' t'
          | None => None
          end
      | File _ => None
      end
  end.

(** Bind the last component of [p] to [n] in its parent directory, which
    must exist. *)
Fixpoint put (p : path) (n : node) (t : node) {struct p} : option node :=
  match p, t with
  | [], _ => None
  | [c], Dir es => Some (Dir (set_entry c n es))
  | c :: p', Dir es =>
      match assoc c es with
      | Some t' =>
          match put p' n t' with
          | Some t'' => Some (Dir (set_entry c t'' es))
          | None => None
          end
      | None => None
      end
  | _ :: _, File _ => None
  end.

(** Unlink the entry [p]. *)
Fixpoint del (p : path) (t : node) {struct p} : option node :=
  match p, t with
  | [], _ => None
  | [c], Dir es =>
      match assoc c es with
      | Some _ => Some (Dir (del_entry c es))
      | None => None
      end
  | c :: p', Dir es =>
      match assoc c es with
      | Some t' =>
          match del p' t' with
          | Some t'' => Some (Dir (set_entry c t'' es))
          | None => None
          end
      | None => None
      end
  | _ :: _, File _ => None
  end.

(** [os.path.exists], [os.path.isfile], [os.path.isdir] *)
Definition exists_ (fs : node) (p : path) : bool :=
  match lookup p fs with
  | Some _ => true
  | None => false
  end.

Definition isfile (fs : node) (p : path) : bool :=
  match lookup p fs with
  | Some (File _) => true
  | _ => false
  end.

Definition isdir (fs : node) (p : path) : bool :=
  match lookup p fs with
  | Some (Dir _) => true
  | _ => false
  end.

(** [os.listdir] *)
Definition listdir (fs : node) (p : path) : result (list str) :=
  match lookup p fs with
  | Some (Dir es) => Ok (names es)
  | _ => Raise OSError
  end.

(** A chain of new, empty directories. *)
Fixpoint new_dirs (p : path) : node :=
  match p with
  | [] => Dir []
  | c :: p' => Dir [(c, new_dirs p')]
  end.

(** [os.makedirs(p)] with [exist_ok=False]: creates the missing
    directories along [p]; raises when a component is a regular file or when
    [p] itself exists. *)
Fixpoint makedirs (p : path) (t : node) {struct p} : result node :=
  match t with
  | File _ => Raise OSError
  | Dir es =>
      match p with
      | [] => Raise OSError
      | c :: p' =>
          match assoc c es with
          | Some t' =>
              t'' <-! makedirs p' t';
              Ok (Dir (set_entry c t'' es))
          | None => Ok (Dir (set_entry c (new_dirs p') es))
          end
      end
  end.

(** [open(p, 'r', encoding='utf-8').read()] *)
Definition open_read (fs : node) (p : path) : result str :=
  match lookup p fs with
  | Some (File (Text s)) => Ok s
  | _ => Raise OSError
  end.

(** What the file system accepts as a new entry. The limits on the length
    of a name and of a path, and the characters a name may hold, differ
    between systems (on Linux a name of more than 255 bytes is refused with
    ENAMETOOLONG); they are a parameter: [creatable p] tells whether an
    entry may be created at the path [p]. *)
Class limits : Type := Limits { creatable : path -> bool }.

(** [p] can be opened for writing, its parent being a directory: it is a
    regular file, or it does not exist and the file system accepts it as a
    new entry. A directory cannot be opened for writing. *)
Definition writable `{limits} (fs : node) (p : path) : bool :=
  match lookup p fs with
  | Some (File _) => true
  | Some (Dir _) => false
  | None => creatable p
  end.

(** [open(p, 'w')] followed by writing [s]: truncates the file when it
    exists and creates it when the file system accepts the new entry;
    raises when [p] is a directory, when the new entry is refused, and
    when the parent of [p] is not a directory. *)
Definition open_write `{limits} (fs : node) (p : path) (s : str)
  : result node :=
  if writable fs p then
    match put p (File (Text s)) fs with
    | Some fs' => Ok fs'
    | None => Raise OSError
    end
  else Raise OSError.

(** [shutil.move(src, dst)]: into [dst] when it is a directory (refusing to
    replace an entry there), else a rename that replaces a file at [dst]. *)
Definition shutil_move (fs : node) (src dst : path) : result node :=
  match lookup src fs with
  | None => Raise OSError
  | Some n =>
      let real_dst :=
        if isdir fs dst then os_path_join dst [basename src] else dst in
      if isdir fs dst && exists_ fs real_dst then Raise OSError
      else
        match put real_dst n fs with
        | None => Raise OSError
        | Some fs' =>
            match del src fs' with
            | Some fs'' => Ok fs''
            | None => Raise OSError
            end
        end
  end.

(** [os.walk(top)], top-down: one triple [(root, dirs, files)] per
    directory, then the walks of its sub-directories in listing order. *)
Abbreviation walk_entry := (path * list str * list str)%type.

Fixpoint walk_node (top : path) (t : node) {struct t} : list walk_entry :=
  match t with
  | File _ => []
  | Dir es =>
      (top, dirnames es, filenames es) ::
      (fix walk_entries (es : list (str * node)) : list walk_entry :=
         match es with
         | [] => []
         | (c, t') :: es' =>
             walk_node (os_path_join top [c]) t' ++ walk_entries es'
         end) es
  end.

Definition walk_entries (top : path) (es : list (str * node))
  : list walk_entry :=
  flat_map (fun e => walk_node (os_path_join top [e.1]) e.2) es.

Definition os_walk (fs : node) (top : path) : list walk_entry :=
  match lookup top fs with
  | Some t => walk_node top t
  | None => []
  end.

(** Well-formed trees: the entries of every directory have distinct
    names. *)
Fixpoint wfb (t : node) : bool :=
  match t with
  | File _ => true
  | Dir es =>
      bool_decide (NoDup (names es)) &&
      (fix all (es : list (str * node)) : bool :=
         match es with
         | [] => true
         | (_, t') :: es' => wfb t' && all es'
         end) es
  end.

End FS.

Import FS.

(** ** organize_crates.py: the partition table and the classifier *)

Module Crates.

(** The third component of a group: a chunk of the alphabet (a string,
    tested by substring) or a list of one-character strings (tested by
    equality). *)
Inductive chars : Type :=
| Chunk (s : str)
| Items (l : list str).

#[global] Instance chars_eq_dec : EqDecision chars.
Proof. solve_decision. Defined.

(** [x in range_chars] *)
Definition py_in (x : str) (r : chars) : bool :=
  match r with
  | Chunk s => str_in x s
  | Items l => list_in x l
  end.

(** A group is the tuple [(group_name, group_prefix, group_range)]. *)
Abbreviation group := (str * str * chars)%type.

Definition group_name (g : group) : str := g.1.1.
Definition group_range (g : group) : chars := g.2.

(** The body of the outer loop of [get_letter_groups]: the groups of one
    first letter. *)
Definition groups_of (first_letter : N) : list group :=
  let second_letters := ascii_uppercase in
  let chunk_size := 4%nat in
  flat_map
    (fun i =>
       let chunk := slice second_letters i (i + chunk_size) in
       match chunk with
       | [] => []
       | start :: _ =>
           let end_ := List.last chunk start in
           let group_name :=
             [first_letter; start] ++ py "-" ++ [first_letter; end_] in
           [(group_name, [first_letter], Chunk chunk)]
       end)
    (range 0 (length second_letters) chunk_size).

Definition number_groups : list group :=
  [ (py "0-2", [], Items [py "0"; py "1"; py "2"]);
    (py "3-5", [], Items [py "3"; py "4"; py "5"]);
    (py "6-9", [], Items [py "6"; py "7"; py "8"; py "9"]) ].

Definition get_letter_groups : gmap (list N) (list group) :=
  let letter_groups :=
    foldl (fun d first_letter => <[ [first_letter] := groups_of first_letter ]> d)
          ∅ ascii_uppercase in
  let letter_groups := <[ py "0-9" := number_groups ]> letter_groups in
  <[ py "OTHER" := [(py "OTHER", [], Items [])] ]> letter_groups.

(** [d[k]] *)
Definition getitem (d : gmap (list N) (list group)) (k : str)
  : result (list group) :=
  match d !! k with
  | Some v => Ok v
  | None => Raise (KeyError k)
  end.

(** [l[0]] *)
Definition first_item (l : list group) : result group :=
  match l with
  | g :: _ => Ok g
  | [] => Raise IndexError
  end.

Section Classifier.
Variable U : unicode.

Definition get_target_directory (filename : str) (base_dir : path)
  : result path :=
  match filename with
  | [] => Ok (os_path_join base_dir [py "OTHER"; py "OTHER"])
  | c0 :: rest =>
      let first_char := upper U c0 in
      let first_level :=
        if str_in first_char ascii_uppercase then first_char
        else if str_isdigit U first_char then py "0-9"
        else py "OTHER" in
      let letter_groups := get_letter_groups in
      if str_in first_level ascii_uppercase then
        let second_char :=
          match rest with
          | c1 :: _ => upper U c1
          | [] => py "A"
          end in
        let default :=
          groups <-! getitem letter_groups first_level;
          g <-! first_item groups;
          Ok (os_path_join base_dir [first_level; group_name g]) in
        if str_in second_char ascii_uppercase then
          groups <-! getitem letter_groups first_level;
          match List.find (fun g => py_in second_char (group_range g)) groups with
          | Some g => Ok (os_path_join base_dir [first_level; group_name g])
          | None => default
          end
        else default
      else if str_eqb first_level (py "0-9") then
        groups <-! getitem letter_groups (py "0-9");
        match List.find (fun g => py_in first_char (group_range g)) groups with
        | Some g => Ok (os_path_join base_dir [py "0-9"; group_name g])
        | None =>
            g <-! first_item groups;
            Ok (os_path_join base_dir [py "0-9"; group_name g])
        end
      else Ok (os_path_join base_dir [py "OTHER"; py "OTHER"])
  end.

End Classifier.

(** [for x in l: s = f(s, x)] in the error monad. *)
Fixpoint foldM {S A : Type} (f : S -> A -> result S) (s : S) (l : list A)
  : result S :=
  match l with
  | [] => Ok s
  | x :: l' => s' <-! f s x; foldM f s' l'
  end.

(** [[f(x) for x in l]] in the error monad. *)
Fixpoint mapM {A B : Type} (f : A -> result B) (l : list A)
  : result (list B) :=
  match l with
  | [] => Ok []
  | x :: l' => y <-! f x; ys <-! mapM f l'; Ok (y :: ys)
  end.

(** [list(string.ascii_uppercase) + ["0-9", "OTHER"]] *)
Definition first_levels : list str :=
  map (fun c => [c]) ascii_uppercase ++ [py "0-9"; py "OTHER"].

Definition create_second_level (first_dir : path) (fs : node) (g : group)
  : result node :=
  let second_dir := os_path_join first_dir [group_name g] in
  if negb (exists_ fs second_dir) then makedirs second_dir fs else Ok fs.

Definition create_first_level (base_dir : path) (fs : node) (first_level : str)
  : result node :=
  let first_dir := os_path_join base_dir [first_level] in
  fs <-! (if negb (exists_ fs first_dir) then makedirs first_dir fs else Ok fs);
  groups <-! getitem get_letter_groups first_level;
  foldM (create_second_level first_dir) fs groups.

Definition create_directories (fs : node) (base_dir : path) : result node :=
  foldM (create_first_level base_dir) fs first_levels.

(** One move: [True] and the new tree, or [False] and the tree as it was
    (the error is logged). *)
Definition move_file (fs : node) (args : path * path) : bool * node :=
  let '(file_path, target_dir) := args in
  let filename := basename file_path in
  let target_path := os_path_join target_dir [filename] in
  match shutil_move fs file_path target_path with
  | Ok fs' => (true, fs')
  | Raise _ => (false, fs)
  end.

(** [list(executor.map(move_file, move_args))]: the results come back in
    submission order; the moves are taken in that order. *)
Fixpoint executor_map (fs : node) (move_args : list (path * path))
  : list bool * node :=
  match move_args with
  | [] => ([], fs)
  | a :: rest =>
      let '(r, fs1) := move_file fs a in
      let '(rs, fs2) := executor_map fs1 rest in
      (r :: rs, fs2)
  end.

(** [sum(results)] *)
Definition sum_bools (results : list bool) : nat :=
  length (List.filter (fun b => b) results).

(** The immediate file entries of a directory. *)
Definition top_files (fs : node) (source_dir : path) : result (list str) :=
  names <-! listdir fs source_dir;
  Ok (List.filter (fun f => isfile fs (os_path_join source_dir [f])) names).

Section Relocator.
Variable U : unicode.

(** The loop that prepares the arguments of [move_file]. *)
Definition move_arguments (source_dir : path) (files : list str)
  : result (list (path * path)) :=
  mapM (fun filename =>
          let file_path := os_path_join source_dir [filename] in
          target_dir <-! get_target_directory U filename source_dir;
          Ok (file_path, target_dir))
       files.

(** [organize_files]: the result pair and the tree after the run (the
    per-bucket tallies of a dry run are only logged). *)
Definition organize_files (fs : node) (source_dir : path) (dry_run : bool)
  : result (nat * nat * node) :=
  files <-! top_files fs source_dir;
  let total_files := length files in
  fs <-! (if negb dry_run then create_directories fs source_dir else Ok fs);
  move_args <-! move_arguments source_dir files;
  if negb dry_run then
    let '(results, fs) := executor_map fs move_args in
    Ok (sum_bools results, total_files, fs)
  else Ok (0%nat, total_files, fs).

End Relocator.

(** The chunk of four letters that holds the letter [d], by arithmetic. *)
Definition chunk_start (d : N) : N := 65 + 4 * ((d - 65) / 4).
Definition chunk_end (d : N) : N := N.min (chunk_start d + 3) 90.
Definition chunk_name (l d : N) : str :=
  [l; chunk_start d] ++ py "-" ++ [l; chunk_end d].

(** The seven chunks of the alphabet, written out. *)
Definition alphabet_chunks : list str :=
  [py "ABCD"; py "EFGH"; py "IJKL"; py "MNOP"; py "QRST"; py "UVWX"; py "YZ"].

Definition digits : str := py "0123456789".

(** The characters of a range, in order. *)
Definition chars_str (r : chars) : str :=
  match r with
  | Chunk s => s
  | Items l => concat l
  end.

(** In how many groups the string [x] falls. *)
Definition count_in (x : str) (groups : list group) : nat :=
  length (List.filter (fun g => py_in x (group_range g)) groups).

End Crates.

Import Crates.


(** ** organize_metadata.py: the metadata indexer *)

Module Metadata.

(** JSON values as [json.loads] builds them; a float is kept as its
    literal, with whether it is zero. *)
#[warnings="-register-all"]
Inductive json : Type :=
| JNull
| JBool (b : bool)
| JInt (z : Z)
| JFloat (is_zero : bool) (literal : str)
| JStr (s : str)
| JList (l : list json)
| JDict (items : list (str * json)).

(** The [json] module and [str()] on a value that is not a string:
    [loads s] is [None] when [json.loads(s)] raises [JSONDecodeError];
    [dumps v] is the text [json.dump(v, f, indent=2)] writes. *)
Record json_lib : Type := JsonLib {
  loads : str -> option json;
  dumps : json -> str;
  format_other : json -> str
}.

(** [f"{v}"] *)
Definition format (L : json_lib) (v : json) : str :=
  match v with
  | JStr s => s
  | _ => format_other L v
  end.

(** Truth value of a JSON value. *)
Definition truthy (v : json) : bool :=
  match v with
  | JNull => false
  | JBool b => b
  | JInt z => negb (z =? 0)%Z
  | JFloat is_zero _ => negb is_zero
  | JStr s => negb (bool_decide (s = []))
  | JList l => negb (bool_decide (l = []))
  | JDict items => negb (bool_decide (items = []))
  end.

Fixpoint dict_lookup (k : str) (items : list (str * json)) : option json :=
  match items with
  | [] => None
  | (k', v) :: items' => if str_eqb k k' then Some v else dict_lookup k items'
  end.

(** [metadata.get(k)]: [None] is Python's [None]. *)
Definition get (metadata : json) (k : str) : result (option json) :=
  match metadata with
  | JDict items => Ok (dict_lookup k items)
  | _ => Raise AttributeError
  end.

(** [s.strip()] *)
Fixpoint lstrip (U : unicode) (s : str) : str :=
  match s with
  | [] => []
  | c :: s' => if isspace U c then lstrip U s' else s
  end.

Definition strip (U : unicode) (s : str) : str :=
  rev (lstrip U (rev (lstrip U s))).

(** [f.readlines()] in text mode: universal newlines, each line keeps its
    terminator. *)
Fixpoint universal_newlines (s : str) : str :=
  match s with
  | [] => []
  | c :: s' =>
      if c =? 13 then
        10 :: match s' with
              | [] => []
              | d :: s'' =>
                  if d =? 10 then universal_newlines s''
                  else universal_newlines s'
              end
      else c :: universal_newlines s'
  end.

Fixpoint split_lines (cur : str) (s : str) : list str :=
  match s with
  | [] => match cur with [] => [] | _ => [rev cur] end
  | c :: s' =>
      if c =? 10 then rev (c :: cur) :: split_lines [] s'
      else split_lines (c :: cur) s'
  end.

Definition readlines (text : str) : list str :=
  split_lines [] (universal_newlines text).

(** What the run writes to the log. *)
Inductive event : Type :=
| CrateNotFound (crate_name version : str)
| JsonError (metadata_file : path) (line : str)
| MetadataError (crate_name : str)
| FileError (metadata_file : path).

(** [find_crate_file]: the first file of the walk with the expected
    name. *)
Fixpoint first_match (expected : str) (w : list walk_entry) : option path :=
  match w with
  | [] => None
  | (root, _, files) :: w' =>
      match List.find (fun file => str_eqb file expected) files with
      | Some file => Some (os_path_join root [file])
      | None => first_match expected w'
      end
  end.

Definition crate_filename (crate_name version : str) : str :=
  crate_name ++ py "-" ++ version ++ py ".crate".

Definition sidecar_filename (crate_name version : str) : str :=
  crate_name ++ py "-" ++ version ++ py ".metadata.json".

Definition find_crate_file (fs : node) (crate_name version : str)
  (mirror_dir : path) : option path :=
  let expected_filename := crate_filename crate_name version in
  first_match expected_filename (os_walk fs mirror_dir).

(** The state of the loop over the lines of one metadata file. *)
Record tally : Type := Tally {
  success_count : nat;
  total_count : nat;
  tree : node;
  log : list event
}.

Definition logged (e : event) (st : tally) : tally :=
  Tally (success_count st) (total_count st) (tree st) (log st ++ [e]).

Section Indexer.
Context `{O : limits}.
Variable U : unicode.
Variable L : json_lib.

(** The two guards in front of the parser. *)
Definition candidate (line : str) : bool :=
  negb (bool_decide (strip U line = [])) &&
  (startswith (strip U line) (py "{") && endswith (strip U line) (py "}")).

(** The body of the loop over the lines. *)
Definition process_line (metadata_file : path) (crate_name : str)
  (mirror_dir : path) (dry_run : bool) (st : tally) (line : str) : tally :=
  if bool_decide (strip U line = []) then st
  else if negb (startswith (strip U line) (py "{") &&
                endswith (strip U line) (py "}")) then st
  else
    match loads L line with
    | None => logged (JsonError metadata_file line) st
    | Some metadata =>
        match get metadata (py "vers") with
        | Raise _ => logged (MetadataError crate_name) st
        | Ok None => st
        | Ok (Some version) =>
            if negb (truthy version) then st
            else
              let st := Tally (success_count st) (S (total_count st))
                              (tree st) (log st) in
              let version := format L version in
              match find_crate_file (tree st) crate_name version mirror_dir with
              | None => logged (CrateNotFound crate_name version) st
              | Some crate_file_path =>
                  let crate_dir := dirname crate_file_path in
                  let metadata_output_path :=
                    os_path_join crate_dir
                      [sidecar_filename crate_name version] in
                  if negb dry_run then
                    match open_write (tree st) metadata_output_path
                                     (dumps L metadata) with
                    | Ok fs' =>
                        Tally (S (success_count st)) (total_count st)
                              fs' (log st)
                    | Raise _ => logged (MetadataError crate_name) st
                    end
                  else
                    Tally (S (success_count st)) (total_count st)
                          (tree st) (log st)
              end
        end
    end.

Definition process_lines (metadata_file : path) (crate_name : str)
  (mirror_dir : path) (dry_run : bool) (st : tally) (lines : list str)
  : tally :=
  fold_left (process_line metadata_file crate_name mirror_dir dry_run)
            lines st.

(** [process_metadata_file]: the pair it returns, the tree it leaves and
    what it logged. *)
Definition process_metadata_file (fs : node) (metadata_file mirror_dir : path)
  (dry_run : bool) : tally :=
  if list_in (basename metadata_file) [py ".git"; py "config.json"]
  then Tally 0 0 fs []
  else if isdir fs metadata_file then Tally 0 0 fs []
  else
    let crate_name := basename metadata_file in
    match open_read fs metadata_file with
    | Raise _ => Tally 0 0 fs [FileError metadata_file]
    | Ok text =>
        process_lines metadata_file crate_name mirror_dir dry_run
                      (Tally 0 0 fs []) (readlines text)
    end.

Definition excluded_dirs : list str :=
  [py ".git"; py ".venv"; py "site-packages"; py "pip"; py "python";
   py "__pycache__"].

Definition skipped_suffixes : list str :=
  [py ".py"; py ".pyc"; py ".pyd"; py ".dll"; py ".exe"; py ".bat";
   py ".sh"; py ".md"; py ".txt"; py ".html"].

(** [any(d in root for d in [...])] on the root as a string. *)
Definition excluded (root : path) : bool :=
  existsb (fun d => str_in d (path_str root)) excluded_dirs.

Definition skipped (file : str) : bool :=
  str_eqb file (py "config.json") || existsb (endswith file) skipped_suffixes.

(** The files the walk of the index keeps. *)
Definition collect (w : list walk_entry) : list path :=
  flat_map
    (fun '(root, _, files) =>
       if excluded root then []
       else
         flat_map
           (fun file => if skipped file then [] else [os_path_join root [file]])
           files)
    w.

Definition metadata_files (fs : node) (index_dir : path) : list path :=
  collect (os_walk fs index_dir).

(** One unit of work after the other, in submission order; the pairs are
    added up. *)
Definition run_file (mirror_dir : path) (dry_run : bool) (st : tally)
  (metadata_file : path) : tally :=
  let r := process_metadata_file (tree st) metadata_file mirror_dir dry_run in
  Tally (success_count st + success_count r)
        (total_count st + total_count r)
        (tree r) (log st ++ log r).

Definition run_files (mirror_dir : path) (dry_run : bool) (st : tally)
  (files : list path) : tally :=
  fold_left (run_file mirror_dir dry_run) files st.

Definition organize_metadata (fs : node) (index_dir mirror_dir : path)
  (dry_run : bool) : tally :=
  run_files mirror_dir dry_run (Tally 0 0 fs []) (metadata_files fs index_dir).

End Indexer.

(** A reader and a writer for flat JSON objects whose members are strings
    without escapes: on these they agree with [json.loads] and with
    [json.dump(..., indent=2)]; [mini_loads] rejects everything else. *)
Definition json_ws (c : N) : bool :=
  (c =? 32) || (c =? 9) || (c =? 10) || (c =? 13).

Fixpoint skip_ws (s : str) : str :=
  match s with
  | [] => []
  | c :: s' => if json_ws c then skip_ws s' else s
  end.

Fixpoint string_body (s : str) (acc : str) : option (str * str) :=
  match s with
  | [] => None
  | c :: s' =>
      if c =? 34 then Some (rev acc, s')
      else if (c =? 92) || (c <? 32) || (127 <? c) then None
      else string_body s' (c :: acc)
  end.

Definition string_literal (s : str) : option (str * str) :=
  match s with
  | [] => None
  | c :: s' => if c =? 34 then string_body s' [] else None
  end.

Fixpoint dict_set (k : str) (v : json) (items : list (str * json))
  : list (str * json) :=
  match items with
  | [] => [(k, v)]
  | (k', v') :: items' =>
      if str_eqb k k' then (k, v) :: items'
      else (k', v') :: dict_set k v items'
  end.

Fixpoint members (fuel : nat) (s : str) (items : list (str * json))
  : option json :=
  match fuel with
  | O => None
  | S fuel' =>
      match string_literal (skip_ws s) with
      | None => None
      | Some (k, s1) =>
          match skip_ws s1 with
          | [] => None
          | c :: s2 =>
              if c =? 58 then
                match string_literal (skip_ws s2) with
                | None => None
                | Some (v, s3) =>
                    let items := dict_set k (JStr v) items in
                    match skip_ws s3 with
                    | [] => None
                    | d :: s4 =>
                        if d =? 44 then members fuel' s4 items
                        else if d =? 125 then
                          match skip_ws s4 with
                          | [] => Some (JDict items)
                          | _ :: _ => None
                          end
                        else None
                    end
                end
              else None
          end
      end
  end.

Definition mini_loads (s : str) : option json :=
  match skip_ws s with
  | [] => None
  | c :: s1 =>
      if c =? 123 then
        match skip_ws s1 with
        | [] => None
        | d :: s2 =>
            if d =? 125 then
              match skip_ws s2 with
              | [] => Some (JDict [])
              | _ :: _ => None
              end
            else members (length s) s1 []
        end
      else None
  end.

Definition mini_value (v : json) : str :=
  match v with
  | JStr s => [34] ++ s ++ [34]
  | JBool true => py "true"
  | JBool false => py "false"
  | _ => py "null"
  end.

Fixpoint mini_items (items : list (str * json)) : str :=
  match items with
  | [] => []
  | [(k, v)] => py "  " ++ [34] ++ k ++ [34] ++ py ": " ++ mini_value v ++ [10]
  | (k, v) :: items' =>
      py "  " ++ [34] ++ k ++ [34] ++ py ": " ++ mini_value v ++ py "," ++ [10]
      ++ mini_items items'
  end.

Definition mini_dumps (v : json) : str :=
  match v with
  | JDict [] => py "{}"
  | JDict items => py "{" ++ [10] ++ mini_items items ++ py "}"
  | _ => mini_value v
  end.

Definition mini_format_other (v : json) : str :=
  match v with
  | JBool true => py "True"
  | JBool false => py "False"
  | _ => py "None"
  end.

(** An ASCII literal in which ['] stands for the double quote. *)
Definition pyq (s : string) : str :=
  map (fun c => if c =? 39 then 34 else c) (py s).

Definition mini_json : json_lib :=
  JsonLib mini_loads mini_dumps mini_format_other.

End Metadata.

Import Metadata.

(** ** Notions used in the statements *)

Module Notions.

(** [p] is [q] or an ancestor of [q]. *)
Fixpoint prefixb (p q : path) : bool :=
  match p, q with
  | [], _ => true
  | c :: p', d :: q' => str_eqb c d && prefixb p' q'
  | _ :: _, [] => false
  end.


(** The record a line holds, with its version as formatted in file names:
    the line passes the two guards, parses to an object, and its [vers]
    member is truthy. *)
Definition record_of (U : unicode) (L : json_lib) (line : str)
  : option (json * str) :=
  if candidate U line then
    match loads L line with
    | Some (JDict items) =>
        match dict_lookup (py "vers") items with
        | Some version =>
            if truthy version then Some (JDict items, format L version)
            else None
        | None => None
        end
    | _ => None
    end
  else None.









(** The entry named [x] of a listing is a regular file. *)
Definition file_entry (es : list (str * node)) (x : str) : bool :=
  match assoc x es with
  | Some (File _) => true
  | _ => false
  end.

(** The names of the regular files of a listing. *)
Definition file_names (es : list (str * node)) : list str :=
  List.filter (file_entry es) (names es).



End Notions.

Import Notions.

(** ** Example trees *)

Module Examples.

Definition line_1 : str := pyq "{'name': 'foo', 'vers': '1.0.0'}" ++ [10].


Definition bucket (extra : list (str * node)) : node :=
  Dir [(py "F",
        Dir [(py "FO-FR",
              Dir ((py "foo-1.0.0.crate", File Blob) :: extra))])].

Definition index_of (parent : str) (text : str) : node :=
  Dir [(parent, Dir [(py "foo", File (Text text))]);
       (py "config.json", File (Text []))].





(** The number of bytes of a string in UTF-8. *)
Definition utf8_length (s : str) : N :=
  fold_right
    (fun c n =>
       (if c <? 128 then 1 else if c <? 2048 then 2
        else if c <? 65536 then 3 else 4) + n)
    0 s.

(** The limits of Linux, for the examples: a name of at most 255 bytes and
    a path of fewer than 4096. *)
#[global] Instance linux_limits : limits :=
  Limits (fun p => (utf8_length (basename p) <=? 255) &&
                   (utf8_length (path_str p) <? 4096)).




Definition ex_index : path := [py "index"].
Definition ex_mirror : path := [py "mirror"].

(** A flat source directory, and the same with a file named as a
    first-level bucket. *)
Definition ex_flat : node :=
  Dir [(py "m",
        Dir [(py "abc-0.1.0.crate", File Blob); (py "7z-1.0.crate", File Blob);
             (py "Qx", File Blob); (py "_x", File Blob); (py "sub", Dir [])])].

Definition ex_flat_blocked : node :=
  Dir [(py "m", Dir [(py "abc-0.1.0.crate", File Blob); (py "A", File Blob)])].

End Examples.

Import Examples.

(** ** The rest of the two programs *)

Module Programs.

(** [d[k] = d.get(k, 0) + 1] *)
Definition dict_incr (d : gmap (list N) nat) (k : str) : gmap (list N) nat :=
  <[ k := (default 0%nat (d !! k) + 1)%nat ]> d.

(** The body of the loop of a dry run of [organize_files] that counts the
    files per first-level and per second-level directory;
    [os.path.normpath(target_dir).split(os.sep)] is the list of the
    components of the target. *)
Definition tally_target
  (counts : gmap (list N) nat * gmap (list N) nat) (arg : path * path)
  : gmap (list N) nat * gmap (list N) nat :=
  let '(first_level_counts, second_level_counts) := counts in
  let '(_, target_dir) := arg in
  let path_parts := target_dir in
  if (2 <=? length path_parts)%nat then
    let first_level := nth (length path_parts - 2) path_parts [] in
    let second_level := List.last path_parts [] in
    let second_level_key := first_level ++ py "/" ++ second_level in
    (dict_incr first_level_counts first_level,
     dict_incr second_level_counts second_level_key)
  else counts.

Definition tally_targets (move_args : list (path * path))
  : gmap (list N) nat * gmap (list N) nat :=
  foldl tally_target (∅, ∅) move_args.

(** The command line of [organize_crates.py], parsed. *)
Record crates_args : Type := CratesArgs {
  args_source_dir : path;
  args_dry_run : bool
}.

(** [main] of [organize_crates.py]: the exit code and the tree it leaves.
    The log file is kept outside the tree. *)
Definition crates_main (U : unicode) (fs : node) (args : crates_args)
  : result (nat * node) :=
  if negb (exists_ fs (args_source_dir args)) then Ok (1%nat, fs)
  else
    r <-! organize_files U fs (args_source_dir args) (args_dry_run args);
    Ok (0%nat, r.2).



End Programs.

Import Programs.

(** ** Notions for the further properties *)

Module Views.

(** The band of a digit, by comparison; a string that is not one of the
    ten digits has no band of its own and gets the first. *)
Definition band_of (first_char : str) : str :=
  match first_char with
  | [x] =>
      if (51 <=? x) && (x <=? 53) then py "3-5"
      else if (54 <=? x) && (x <=? 57) then py "6-9"
      else py "0-2"
  | _ => py "0-2"
  end.

(** Number of elements of [l] whose key, when they have one, is [k]. *)
Definition count_key {A : Type} (key : A -> option str) (k : str) (l : list A)
  : nat :=
  length (List.filter (fun a => bool_decide (key a = Some k)) l).

(** The first-level and second-level keys under which a target is
    counted. *)
Definition first_level_key (arg : path * path) : option str :=
  let parts := arg.2 in
  if (2 <=? length parts)%nat then Some (nth (length parts - 2) parts [])
  else None.

Definition second_level_key (arg : path * path) : option str :=
  let parts := arg.2 in
  if (2 <=? length parts)%nat
  then Some (nth (length parts - 2) parts [] ++ py "/" ++ List.last parts [])
  else None.

(** The tree [t'] keeps what [t] holds: every file with its content,
    every directory as a directory. *)
Definition keeps (t t' : node) : Prop :=
  forall q n, lookup q t = Some n ->
    match n with
    | File c => lookup q t' = Some (File c)
    | Dir _ => isdir t' q = true
    end.

(** Every file of [t'] is a file of [t], with the same content. *)
Definition no_new_file (t t' : node) : Prop :=
  forall q c, lookup q t' = Some (File c) -> lookup q t = Some (File c).

(** The flat source directory of the examples, provisioned. *)
Definition ex_provisioned : node :=
  Eval vm_compute in
    match create_directories ex_flat [py "m"] with
    | Ok t => t
    | Raise _ => Dir []
    end.

(** What provisioning may do to a tree. *)
Definition grows (t t' : node) : Prop := keeps t t' /\ no_new_file t t'.

(** The first-level directory [k] and its second-level directories
    exist. *)
Definition provisioned (b : path) (k : str) (fs : node) : Prop :=
  exists_ fs (os_path_join b [k]) = true /\
  forall groups g,
    get_letter_groups !! k = Some groups -> In g groups ->
    exists_ fs (os_path_join b [k; group_name g]) = true.

(** Where [shutil.move] puts the file [file_path] when [move_file] is given
    [target_dir]: under the target path when that is a directory. *)
Definition landing (fs : node) (file_path target_dir : path) : path :=
  let target_path := os_path_join target_dir [basename file_path] in
  if isdir fs target_path then os_path_join target_path [basename file_path]
  else target_path.

(** The sum of the counts of a tally. *)
Definition counts_total (d : gmap (list N) nat) : nat :=
  map_fold (fun _ n acc => (n + acc)%nat) 0%nat d.

(** The number of version records among the lines of a metadata file. *)
Definition records (U : unicode) (L : json_lib) (lines : list str) : nat :=
  length (List.filter (fun line => bool_decide (is_Some (record_of U L line)))
                      lines).

(** The versions the metadata file [f] of the tree [fs] holds, as
    [process_metadata_file] reads it. *)
Definition versions_of (U : unicode) (L : json_lib) (fs : node) (f : path)
  : nat :=
  if list_in (basename f) [py ".git"; py "config.json"] then 0%nat
  else if isdir fs f then 0%nat
  else
    match open_read fs f with
    | Ok text => records U L (readlines text)
    | Raise _ => 0%nat
    end.

(** The suffix of the name of a sidecar. *)
Definition sidecar_suffix : str := py ".metadata.json".

(** [q] is a directory of the layout under [b]: a first-level directory
    or one of its second-level directories. *)
Definition bucket_dir (b q : path) : Prop :=
  exists k groups,
    In k first_levels /\ get_letter_groups !! k = Some groups /\
    (q = os_path_join b [k] \/
     exists g, In g groups /\ q = os_path_join b [k; group_name g]).

(** The warnings for an archive that was not found, and the errors
    logged while a record was processed, among the events of a log. *)
Definition not_found (l : list event) : nat :=
  length (List.filter (fun e => match e with
                                | CrateNotFound _ _ => true
                                | _ => false
                                end) l).

Definition metadata_errors (l : list event) : nat :=
  length (List.filter (fun e => match e with
                                | MetadataError _ => true
                                | _ => false
                                end) l).

(** Every version counted is a success, a warning or an error; in a
    simulation, a success or a warning. *)
Definition accounted (dry : bool) (st : tally) : Prop :=
  (total_count st
   <= success_count st + not_found (log st) + metadata_errors (log st))%nat /\
  (dry = true ->
   total_count st = (success_count st + not_found (log st))%nat).


End Views.

Import Views.

(** * Properties *)

(** ** The classifier and its partition table *)

Module ClassifierProps.

Lemma cpython_faithful : ascii_faithful cpython.
Proof.
  split; cbn [cpython upper isdigit]; intros c.
  - intros [H1 H2]. unfold cpython_upper.
    assert (E : ((97 <=? c) && (c <=? 122)) = true)
      by (apply andb_true_iff; split; apply N.leb_le; lia).
    now rewrite E.
  - intros Hc Hn. unfold cpython_upper.
    assert (E : ((97 <=? c) && (c <=? 122)) = false).
    { apply andb_false_iff.
      destruct (N.leb_spec 97 c); [right | now left].
      apply N.leb_gt. lia. }
    rewrite E.
    repeat match goal with
    | |- context [?a =? ?b] =>
        replace (a =? b) with false by (symmetry; apply N.eqb_neq; lia)
    | |- context [(?a <=? c)] =>
        replace (a <=? c) with false by (symmetry; apply N.leb_gt; lia)
    end.
    reflexivity.
  - intros Hc. unfold cpython_isdigit.
    repeat match goal with
    | |- context [c =? ?b] =>
        replace (c =? b) with false by (symmetry; apply N.eqb_neq; lia)
    | |- context [(?a <=? c) && (c <=? ?b)] =>
        lazymatch a with
        | 48 => fail
        | _ => replace (a <=? c) with false by (symmetry; apply N.leb_gt; lia)
        end
    end.
    cbn [andb orb]. now rewrite !orb_false_r.
Qed.

(** Case analysis on a capital letter. *)
Lemma letter_cases (P : N -> Prop) :
  Forall P ascii_uppercase -> forall l, 65 <= l <= 90 -> P l.
Proof.
  intros HP l Hl.
  rewrite Forall_forall in HP. apply HP.
  replace ascii_uppercase with (map N.of_nat (seq 65 26)) by reflexivity.
  apply list_elem_of_In, in_map_iff. exists (N.to_nat l). split; [lia |].
  apply in_seq. lia.
Qed.

Lemma digit_cases (P : N -> Prop) :
  Forall P digits -> forall d, 48 <= d <= 57 -> P d.
Proof.
  intros HP d Hd.
  rewrite Forall_forall in HP. apply HP.
  replace digits with (map N.of_nat (seq 48 10)) by reflexivity.
  apply list_elem_of_In, in_map_iff. exists (N.to_nat d). split; [lia |].
  apply in_seq. lia.
Qed.

Ltac by_cases_on_letter l :=
  pattern l; apply letter_cases; [| assumption];
  repeat (apply Forall_cons; split; [vm_compute; try reflexivity |]);
  try solve [constructor].

Lemma groups_of_eq (l : N) :
  groups_of l =
  map (fun chunk =>
         ([l; hd 0 chunk] ++ py "-" ++ [l; List.last chunk 0], [l], Chunk chunk))
      alphabet_chunks.
Proof. reflexivity. Qed.

Lemma letter_in_alphabet (l : N) :
  65 <= l <= 90 -> str_in [l] ascii_uppercase = true.
Proof. intros Hl. by_cases_on_letter l. Qed.

Lemma letter_groups_letter (l : N) :
  65 <= l <= 90 -> get_letter_groups !! [l] = Some (groups_of l).
Proof. intros Hl. by_cases_on_letter l. Qed.

Lemma first_group_of (l : N) :
  first_item (groups_of l) = Ok ([l; 65] ++ py "-" ++ [l; 68], [l], Chunk (py "ABCD")).
Proof. reflexivity. Qed.

(** The classifier on a name whose first character uppercases to the
    capital letter [l]. *)
Lemma get_target_directory_letter (U : unicode) (c0 : N) (rest : str)
  (base_dir : path) (l : N) :
  upper U c0 = [l] -> 65 <= l <= 90 ->
  get_target_directory U (c0 :: rest) base_dir =
  let second_char :=
    match rest with
    | c1 :: _ => upper U c1
    | [] => py "A"
    end in
  let first := [l; 65] ++ py "-" ++ [l; 68] in
  Ok (os_path_join base_dir
        [[l];
         if str_in second_char ascii_uppercase then
           match List.find (fun g => py_in second_char (group_range g))
                           (groups_of l) with
           | Some g => group_name g
           | None => first
           end
         else first]).
Proof.
  intros Hu Hl. unfold get_target_directory. rewrite Hu.
  rewrite !(letter_in_alphabet l Hl). cbv zeta.
  unfold getitem. rewrite (letter_groups_letter l Hl). cbn [bind].
  rewrite first_group_of. cbn [bind].
  destruct (str_in _ ascii_uppercase); [| reflexivity].
  destruct (List.find _ _); reflexivity.
Qed.

Lemma startswith_nil (s : str) : startswith s [] = true.
Proof. now destruct s. Qed.

Lemma str_in_single (x : N) (s : str) : str_in [x] s = true -> In x s.
Proof.
  induction s as [| b s IH]; cbn; [discriminate |].
  rewrite startswith_nil, andb_true_r.
  intros H. apply orb_true_iff in H as [H | H].
  - left. apply N.eqb_eq in H. congruence.
  - right. auto.
Qed.

Lemma alphabet_bounds (x : N) : In x ascii_uppercase -> 65 <= x <= 90.
Proof.
  intros H. vm_compute in H.
  repeat (destruct H as [<- | H]; [lia |]). destruct H.
Qed.

(** The classifier returns a bucket whenever the first character
    uppercases to one character. *)
Lemma get_target_directory_single (U : unicode) (c0 x : N) (rest : str)
  (base_dir : path) :
  upper U c0 = [x] ->
  exists first second,
    get_target_directory U (c0 :: rest) base_dir =
    Ok (os_path_join base_dir [first; second]).
Proof.
  intros Hu.
  destruct (str_in [x] ascii_uppercase) eqn:E.
  - apply str_in_single, alphabet_bounds in E.
    rewrite (get_target_directory_letter U c0 rest base_dir x Hu E).
    cbv zeta. eauto.
  - unfold get_target_directory. rewrite Hu, E.
    destruct (str_isdigit U [x]).
    + change (str_in (py "0-9") ascii_uppercase) with false.
      change (str_eqb (py "0-9") (py "0-9")) with true.
      cbv zeta. cbn [bind getitem].
      change (getitem get_letter_groups (py "0-9")) with (Ok number_groups).
      cbn [bind]. destruct (List.find _ number_groups);
        cbn [bind first_item number_groups]; eauto.
    + change (str_in (py "OTHER") ascii_uppercase) with false.
      change (str_eqb (py "OTHER") (py "0-9")) with false.
      cbv zeta. eauto.
Qed.

(** The keys of the partition table. *)
Lemma letter_groups_keys (k : str) (v : list group) :
  get_letter_groups !! k = Some v -> In k first_levels.
Proof.
  assert (E : get_letter_groups =
              list_to_map
                (map (fun k => (k, default [] (get_letter_groups !! k)))
                     first_levels))
    by (vm_compute; reflexivity).
  rewrite E. intros H. apply elem_of_list_to_map_2 in H.
  apply list_elem_of_In, in_map_iff in H as (k' & Heq & Hk).
  apply (f_equal fst) in Heq. cbn [fst] in Heq. now subst k'.
Qed.

(** The classifier returns a bucket whenever the uppercased first
    character is not found in the alphabet. *)
Lemma get_target_directory_other (U : unicode) (c0 : N) (rest : str)
  (base_dir : path) :
  str_in (upper U c0) ascii_uppercase = false ->
  exists first second,
    get_target_directory U (c0 :: rest) base_dir =
    Ok (os_path_join base_dir [first; second]).
Proof.
  intros E. unfold get_target_directory. rewrite E.
  destruct (str_isdigit U (upper U c0)).
  - change (str_in (py "0-9") ascii_uppercase) with false.
    change (str_eqb (py "0-9") (py "0-9")) with true.
    cbv zeta. cbn [bind getitem].
    change (getitem get_letter_groups (py "0-9")) with (Ok number_groups).
    cbn [bind]. destruct (List.find _ number_groups);
      cbn [bind first_item number_groups]; eauto.
  - change (str_in (py "OTHER") ascii_uppercase) with false.
    change (str_eqb (py "OTHER") (py "0-9")) with false.
    cbv zeta. eauto.
Qed.

(** The classifier raises exactly when the uppercased first character is
    found in the alphabet without being one character. *)
Lemma classify_raises_iff (U : unicode) (c0 : N) (rest : str) (base_dir : path) :
  (exists e, get_target_directory U (c0 :: rest) base_dir = Raise e) <->
  str_in (upper U c0) ascii_uppercase = true /\ length (upper U c0) <> 1%nat.
Proof.
  split.
  - intros [e He]. destruct (str_in (upper U c0) ascii_uppercase) eqn:E.
    + split; [reflexivity |]. intros Hlen.
      destruct (upper U c0) as [| x [| y s]] eqn:Hu; try discriminate.
      destruct (get_target_directory_single U c0 x rest base_dir Hu)
        as (a & b & H). congruence.
    + destruct (get_target_directory_other U c0 rest base_dir E)
        as (a & b & H). congruence.
  - intros [E Hlen]. exists (KeyError (upper U c0)).
    assert (Hnone : get_letter_groups !! upper U c0 = None).
    { destruct (get_letter_groups !! upper U c0) as [v |] eqn:Hk; [| reflexivity].
      exfalso. apply letter_groups_keys in Hk. unfold first_levels in Hk.
      apply in_app_or in Hk as [Hk | Hk].
      - apply in_map_iff in Hk as (c & Hc & _). rewrite <- Hc in Hlen.
        now apply Hlen.
      - destruct Hk as [Hk | [Hk | []]]; rewrite <- Hk in E; discriminate. }
    unfold get_target_directory. rewrite E. cbv zeta. rewrite E.
    unfold getitem. rewrite Hnone. cbn [bind].
    match goal with |- (if ?c then _ else _) = _ => now destruct c end.
Qed.

(** C1 (failing input). On a name that starts with U+FB06, the ligature
    whose uppercase form is the two letters ST, the classifier raises
    [KeyError] instead of returning a bucket: ST occurs in the alphabet as a
    substring, and the table has no key ST. *)
Theorem classify_ligature_raises (U : unicode) (rest : str) (base_dir : path) :
  upper U 0xFB06 = py "ST" ->
  get_target_directory U (0xFB06 :: rest) base_dir = Raise (KeyError (py "ST")).
Proof.
  intros Hu. unfold get_target_directory. rewrite Hu.
  change (str_in (py "ST") ascii_uppercase) with true. cbv iota.
  cbv zeta. change (str_in (py "ST") ascii_uppercase) with true. cbv iota.
  change (getitem get_letter_groups (py "ST")) with
    (@Raise (list group) (KeyError (py "ST"))).
  cbn [bind]. now destruct (str_in _ ascii_uppercase).
Qed.

Lemma classify_ligature_raises_witness :
  upper cpython 0xFB06 = py "ST" /\
  get_target_directory cpython (0xFB06 :: py "one-1.0.crate") [py "mirror"]
  = Raise (KeyError (py "ST")).
Proof.
  split; [reflexivity |].
  apply (classify_ligature_raises cpython); reflexivity.
Defined.

(** The empty name goes to OTHER/OTHER under the base directory. *)
Lemma classify_empty (U : unicode) (base_dir : path) :
  get_target_directory U [] base_dir =
  Ok (os_path_join base_dir [py "OTHER"; py "OTHER"]).
Proof. reflexivity. Qed.

(** C2. For every first-level letter, the ranges of its groups, put end to
    end, are exactly A-Z and every letter falls in exactly one of them; the
    three digit bands 0-2, 3-5, 6-9, put end to end, are exactly 0-9 and
    every digit falls in exactly one of them. *)
Theorem partition_table (l c d : N) :
  65 <= l <= 90 -> 65 <= c <= 90 -> 48 <= d <= 57 ->
  (exists groups,
      get_letter_groups !! [l] = Some groups /\
      flat_map (fun g => chars_str (group_range g)) groups = ascii_uppercase /\
      count_in [c] groups = 1%nat) /\
  (exists bands,
      get_letter_groups !! py "0-9" = Some bands /\
      map group_name bands = [py "0-2"; py "3-5"; py "6-9"] /\
      flat_map (fun g => chars_str (group_range g)) bands = digits /\
      count_in [d] bands = 1%nat).
Proof.
  intros Hl Hc Hd. split.
  - exists (groups_of l). split; [now apply letter_groups_letter |].
    split; [reflexivity |].
    rewrite groups_of_eq. by_cases_on_letter c.
  - exists number_groups. repeat split.
    pattern d; apply digit_cases; [| assumption].
    repeat (apply Forall_cons; split; [vm_compute; reflexivity |]).
    constructor.
Qed.

Lemma partition_table_witness :
  (exists groups,
      get_letter_groups !! [81] = Some groups /\
      flat_map (fun g => chars_str (group_range g)) groups = ascii_uppercase /\
      count_in [88] groups = 1%nat) /\
  (exists bands,
      get_letter_groups !! py "0-9" = Some bands /\
      map group_name bands = [py "0-2"; py "3-5"; py "6-9"] /\
      flat_map (fun g => chars_str (group_range g)) bands = digits /\
      count_in [55] bands = 1%nat).
Proof. apply (partition_table 81 88 55); lia. Defined.

(** C3. The three example names: 7z-1.0.tar goes to 0-9/6-9, Abc.bin to
    A/AA-AD and zyx to Z/ZY-ZZ, under any base directory. *)
Theorem classify_examples (U : unicode) (base_dir : path) :
  ascii_faithful U ->
  get_target_directory U (py "7z-1.0.tar") base_dir
    = Ok (os_path_join base_dir [py "0-9"; py "6-9"]) /\
  get_target_directory U (py "Abc.bin") base_dir
    = Ok (os_path_join base_dir [py "A"; py "AA-AD"]) /\
  get_target_directory U (py "zyx") base_dir
    = Ok (os_path_join base_dir [py "Z"; py "ZY-ZZ"]) /\
  In 89 (py "YZ").
Proof.
  intros HU. repeat split.
  - change (py "7z-1.0.tar") with (55 :: py "z-1.0.tar").
    unfold get_target_directory.
    rewrite (upper_other U HU 55) by lia.
    unfold str_isdigit. cbn [forallb].
    rewrite (isdigit_ascii U HU 55) by lia.
    reflexivity.
  - change (py "Abc.bin") with (65 :: 98 :: py "c.bin").
    rewrite (get_target_directory_letter U 65 _ base_dir 65)
      by (try apply (upper_other U HU); lia).
    cbv zeta. rewrite (upper_lower U HU 98) by lia. reflexivity.
  - change (py "zyx") with (122 :: 121 :: py "x").
    rewrite (get_target_directory_letter U 122 _ base_dir 90)
      by (try apply (upper_lower U HU); lia).
    cbv zeta. rewrite (upper_lower U HU 121) by lia. reflexivity.
  - cbn. tauto.
Qed.

Lemma classify_examples_witness :
  get_target_directory cpython (py "7z-1.0.tar") []
    = Ok [py "0-9"; py "6-9"] /\
  get_target_directory cpython (py "Abc.bin") []
    = Ok [py "A"; py "AA-AD"] /\
  get_target_directory cpython (py "zyx") []
    = Ok [py "Z"; py "ZY-ZZ"] /\
  In 89 (py "YZ").
Proof. apply (classify_examples cpython []). exact cpython_faithful. Defined.

Lemma no_chunk_found (l : N) (x : str) :
  Forall (fun chunk => str_in x chunk = false) alphabet_chunks ->
  List.find (fun g => py_in x (group_range g)) (groups_of l) = None.
Proof.
  rewrite groups_of_eq. generalize alphabet_chunks.
  induction 1 as [| chunk chunks E _ IH]; [reflexivity |].
  cbn [map List.find group_range py_in snd]. now rewrite E.
Qed.

Lemma find_chunk (l : N) (x : str) :
  List.find (fun g => py_in x (group_range g)) (groups_of l) =
  option_map
    (fun chunk =>
       ([l; hd 0 chunk] ++ py "-" ++ [l; List.last chunk 0], [l], Chunk chunk))
    (List.find (str_in x) alphabet_chunks).
Proof.
  rewrite groups_of_eq. generalize alphabet_chunks as chunks.
  induction chunks as [| chunk chunks IH]; [reflexivity |].
  cbn [map List.find group_range py_in snd].
  now destruct (str_in x chunk).
Qed.

(** C4. When the first character uppercases to the letter [l]: a second
    character that uppercases to a letter [d] selects the chunk of four
    that holds [d] (in general, the first chunk in which the uppercased
    second character occurs); a name of length one is treated as if its
    second character were A; and a second character that is not in the
    alphabet, or that no chunk holds, gives the first chunk, lA-lD. *)
Theorem second_level_of_letter (U : unicode) (c0 l : N) (rest : str)
  (base_dir : path) :
  upper U c0 = [l] -> 65 <= l <= 90 ->
  let second_char :=
    match rest with
    | c1 :: _ => upper U c1
    | [] => py "A"
    end in
  let first_chunk := [l; 65] ++ py "-" ++ [l; 68] in
  (forall d, second_char = [d] -> 65 <= d <= 90 ->
     chunk_start d <= d <= chunk_end d /\
     get_target_directory U (c0 :: rest) base_dir
       = Ok (os_path_join base_dir [[l]; chunk_name l d])) /\
  (forall chunk,
     str_in second_char ascii_uppercase = true ->
     List.find (str_in second_char) alphabet_chunks = Some chunk ->
     get_target_directory U (c0 :: rest) base_dir
       = Ok (os_path_join base_dir
               [[l]; [l; hd 0 chunk] ++ py "-" ++ [l; List.last chunk 0]])) /\
  (rest = [] ->
     get_target_directory U (c0 :: rest) base_dir
       = Ok (os_path_join base_dir [[l]; first_chunk])) /\
  (str_in second_char ascii_uppercase = false \/
   Forall (fun chunk => str_in second_char chunk = false) alphabet_chunks ->
     get_target_directory U (c0 :: rest) base_dir
       = Ok (os_path_join base_dir [[l]; first_chunk])).
Proof.
  intros Hu Hl second_char first_chunk.
  rewrite (get_target_directory_letter U c0 rest base_dir l Hu Hl).
  cbv zeta. fold second_char. fold first_chunk. repeat split.
  - pattern d; apply letter_cases; [| assumption].
    repeat (apply Forall_cons; split; [vm_compute; discriminate |]).
    constructor.
  - pattern d; apply letter_cases; [| assumption].
    repeat (apply Forall_cons; split; [vm_compute; discriminate |]).
    constructor.
  - rewrite H. rewrite (letter_in_alphabet d H0).
    clear H. by_cases_on_letter d.
  - intros chunk Hin Hfind. now rewrite Hin, find_chunk, Hfind.
  - intros ->. subst second_char. reflexivity.
  - intros [E | E]; [now rewrite E |].
    destruct (str_in second_char ascii_uppercase); [| reflexivity].
    now rewrite (no_chunk_found l second_char E).
Qed.

Lemma second_level_of_letter_witness :
  (forall d, upper cpython 117 = [d] -> 65 <= d <= 90 ->
     chunk_start d <= d <= chunk_end d /\
     get_target_directory cpython (py "Xu") [py "m"]
       = Ok (os_path_join [py "m"] [[88]; chunk_name 88 d])) /\
  (forall chunk,
     str_in (upper cpython 117) ascii_uppercase = true ->
     List.find (str_in (upper cpython 117)) alphabet_chunks = Some chunk ->
     get_target_directory cpython (py "Xu") [py "m"]
       = Ok (os_path_join [py "m"]
               [[88]; [88; hd 0 chunk] ++ py "-" ++ [88; List.last chunk 0]])) /\
  (py "u" = [] ->
     get_target_directory cpython (py "Xu") [py "m"]
       = Ok (os_path_join [py "m"] [[88]; py "XA-XD"])) /\
  (str_in (upper cpython 117) ascii_uppercase = false \/
   Forall (fun chunk => str_in (upper cpython 117) chunk = false) alphabet_chunks ->
     get_target_directory cpython (py "Xu") [py "m"]
       = Ok (os_path_join [py "m"] [[88]; py "XA-XD"])).
Proof.
  apply (second_level_of_letter cpython 88 88 (py "u") [py "m"]);
    [reflexivity | lia].
Defined.

End ClassifierProps.

Import ClassifierProps.

(** ** The file system *)

Module FSProps.

Lemma str_eqb_eq (x y : str) : str_eqb x y = true <-> x = y.
Proof. unfold str_eqb. apply bool_decide_eq_true. Qed.

Lemma str_eqb_neq (x y : str) : str_eqb x y = false <-> x <> y.
Proof. unfold str_eqb. apply bool_decide_eq_false. Qed.

Lemma str_eqb_refl (x : str) : str_eqb x x = true.
Proof. now apply str_eqb_eq. Qed.

Ltac case_str_eqb :=
  match goal with
  | |- context [str_eqb ?x ?y] =>
      let E := fresh "E" in
      destruct (str_eqb x y) eqn:E;
      [apply str_eqb_eq in E | apply str_eqb_neq in E]
  | H : context [str_eqb ?x ?y] |- _ =>
      let E := fresh "E" in
      destruct (str_eqb x y) eqn:E;
      [apply str_eqb_eq in E | apply str_eqb_neq in E]
  end.

(** A structural induction principle that reaches the entries of a
    directory. *)
Lemma node_induction (P : node -> Prop) :
  (forall c, P (File c)) ->
  (forall es, Forall (fun e => P e.2) es -> P (Dir es)) ->
  forall t, P t.
Proof.
  intros Hfile Hdir. fix IH 1. intros [c | es].
  - apply Hfile.
  - apply Hdir. induction es as [| [c t] es IHes]; constructor.
    + apply IH.
    + apply IHes.
Qed.

(** *** Listings *)

Lemma assoc_set_entry_same c t es : assoc c (set_entry c t es) = Some t.
Proof.
  induction es as [| [c' t'] es IH]; cbn.
  - now rewrite str_eqb_refl.
  - case_str_eqb; cbn.
    + now rewrite str_eqb_refl.
    + apply str_eqb_neq in E. now rewrite E.
Qed.

Lemma assoc_set_entry_other c c' t es :
  c <> c' -> assoc c' (set_entry c t es) = assoc c' es.
Proof.
  intros Hne. induction es as [| [c1 t1] es IH]; cbn.
  - assert (E : str_eqb c' c = false) by (apply str_eqb_neq; congruence).
    now rewrite E.
  - destruct (str_eqb c c1) eqn:E1; cbn.
    + apply str_eqb_eq in E1. subst c1.
      assert (E : str_eqb c' c = false) by (apply str_eqb_neq; congruence).
      now rewrite E.
    + now rewrite IH.
Qed.

Lemma assoc_In c t es : assoc c es = Some t -> In (c, t) es.
Proof.
  induction es as [| [c1 t1] es IH]; cbn; [discriminate |].
  case_str_eqb.
  - intros [= ->]. subst. now left.
  - right. auto.
Qed.




(** *** Lookup and update *)

Lemma lookup_app p q t :
  lookup (p ++ q) t =
  match lookup p t with
  | Some t' => lookup q t'
  | None => None
  end.
Proof.
  revert t. induction p as [| c p IH]; intros t; cbn; [reflexivity |].
  destruct t as [| es]; [reflexivity |].
  destruct (assoc c es); [apply IH | reflexivity].
Qed.

Lemma lookup_file_below c q s :
  q <> [] -> lookup q (File c) = s -> s = None.
Proof. destruct q; [congruence | now intros _ <-]. Qed.

Lemma put_single c n t t' :
  put [c] n t = Some t' ->
  exists es, t = Dir es /\ t' = Dir (set_entry c n es).
Proof. destruct t as [| es]; cbn; [discriminate |]. intros [= <-]. eauto. Qed.

Lemma put_cons_eq c c1 p n es :
  put (c :: c1 :: p) n (Dir es) =
  match assoc c es with
  | Some t1 =>
      match put (c1 :: p) n t1 with
      | Some t'' => Some (Dir (set_entry c t'' es))
      | None => None
      end
  | None => None
  end.
Proof. reflexivity. Qed.

Lemma put_cons c p n t t' :
  p <> [] -> put (c :: p) n t = Some t' ->
  exists es t1 t1',
    t = Dir es /\ assoc c es = Some t1 /\ put p n t1 = Some t1' /\
    t' = Dir (set_entry c t1' es).
Proof.
  intros Hp. destruct p as [| c1 p]; [congruence |].
  destruct t as [| es]; [discriminate |].
  rewrite put_cons_eq.
  destruct (assoc c es) as [t1 |] eqn:Ha; [| discriminate].
  destruct (put (c1 :: p) n t1) as [t1' |] eqn:E; [| discriminate].
  intros [= <-]. exists es, t1, t1'. auto.
Qed.

Lemma put_is_dir p n t t' :
  put p n t = Some t' -> exists es es', t = Dir es /\ t' = Dir es'.
Proof.
  destruct p as [| c p]; [discriminate |].
  destruct p as [| c1 p].
  - intros H. apply put_single in H as (es & -> & ->). eauto.
  - intros H. apply put_cons in H as (es & t1 & t1' & -> & _ & _ & ->);
      [eauto | discriminate].
Qed.

Lemma lookup_put_same p n t t' : put p n t = Some t' -> lookup p t' = Some n.
Proof.
  revert t t'. induction p as [| c p IH]; intros t t'; [discriminate |].
  destruct p as [| c1 p].
  - intros H. apply put_single in H as (es & -> & ->).
    cbn. now rewrite assoc_set_entry_same.
  - intros H. apply put_cons in H as (es & t1 & t1' & -> & Ha & Hp & ->);
      [| discriminate].
    cbn [lookup]. rewrite assoc_set_entry_same. eauto.
Qed.

(** Updating below [p] leaves every path that is not an ancestor of [p],
    nor [p] itself, nor below [p], as it was. *)
Lemma lookup_put_other p q n t t' :
  put p n t = Some t' ->
  ~ p `prefix_of` q -> ~ q `prefix_of` p ->
  lookup q t' = lookup q t.
Proof.
  revert q t t'. induction p as [| c p IH]; intros q t t'; [discriminate |].
  intros H Hpq Hqp.
  destruct q as [| d q]; [exfalso; apply Hqp, prefix_nil |].
  destruct p as [| c1 p].
  - apply put_single in H as (es & -> & ->). cbn [lookup].
    destruct (decide (c = d)) as [-> | Hne].
    + exfalso. apply Hpq. now apply prefix_cons, prefix_nil.
    + now rewrite assoc_set_entry_other.
  - apply put_cons in H as (es & t1 & t1' & -> & Ha & Hp & ->);
      [| discriminate].
    cbn [lookup]. destruct (decide (c = d)) as [-> | Hne].
    + rewrite assoc_set_entry_same, Ha. apply (IH q t1 t1' Hp).
      * intros Hx. apply Hpq. now apply prefix_cons.
      * intros Hx. apply Hqp. now apply prefix_cons.
    + now rewrite assoc_set_entry_other.
Qed.

(** An update below [p] is an update of the subtree at [p]. *)
Lemma put_app p q n t t' :
  q <> [] -> put (p ++ q) n t = Some t' ->
  exists t1 t1',
    lookup p t = Some t1 /\ put q n t1 = Some t1' /\ lookup p t' = Some t1'.
Proof.
  intros Hq. revert t t'. induction p as [| c p IH]; intros t t' H.
  - cbn in *. eauto.
  - change ((c :: p) ++ q) with (c :: (p ++ q)) in H.
    apply put_cons in H as (es & t1 & t1' & -> & Ha & Hp & ->).
    + apply IH in Hp as (t2 & t2' & H1 & H2 & H3).
      exists t2, t2'. cbn [lookup]. rewrite Ha, assoc_set_entry_same. auto.
    + destruct p; [assumption | discriminate].
Qed.

Lemma put_succeeds p c n t es :
  lookup p t = Some (Dir es) -> exists t', put (p ++ [c]) n t = Some t'.
Proof.
  revert t. induction p as [| d p IH]; intros t.
  - cbn. intros [= ->]. eauto.
  - cbn [lookup]. destruct t as [| es0]; [discriminate |].
    destruct (assoc d es0) as [t1 |] eqn:Ha; [| discriminate].
    intros H. apply IH in H as [t1' H].
    change ((d :: p) ++ [c]) with (d :: (p ++ [c])).
    exists (Dir (set_entry d t1' es0)).
    assert (Hne : p ++ [c] <> []) by now destruct p.
    revert H Hne. generalize (p ++ [c]).
    intros [| x r] H Hne; [congruence |].
    now rewrite put_cons_eq, Ha, H.
Qed.

(** *** Walks *)

Lemma walk_node_dir top es :
  walk_node top (Dir es) =
  (top, dirnames es, filenames es) :: walk_entries top es.
Proof.
  simpl. f_equal. unfold walk_entries.
  induction es as [| [c t] es IH]; simpl; [reflexivity |].
  now rewrite IH.
Qed.


Lemma walk_roots top t e :
  In e (walk_node top t) -> exists rel, e.1.1 = top ++ rel.
Proof.
  revert top. induction t as [c | es IH] using node_induction; intros top.
  - intros [].
  - rewrite walk_node_dir. intros [<- | H].
    + exists []. cbn. now rewrite app_nil_r.
    + unfold walk_entries in H. apply in_flat_map in H as ([c t] & Hin & H).
      rewrite Forall_forall in IH.
      apply list_elem_of_In in Hin.
      apply (IH _ Hin) in H as [rel H]. exists (c :: rel).
      rewrite H. cbn. unfold os_path_join. now rewrite <- app_assoc.
Qed.

Lemma wfb_dir es :
  wfb (Dir es) = true <->
  NoDup (names es) /\ Forall (fun e => wfb e.2 = true) es.
Proof.
  simpl. rewrite andb_true_iff, bool_decide_eq_true.
  apply and_iff_compat_l.
  induction es as [| [c t] es IH]; simpl.
  - split; [constructor | reflexivity].
  - rewrite andb_true_iff, IH, Forall_cons. reflexivity.
Qed.

Lemma wfb_lookup p t t' : wfb t = true -> lookup p t = Some t' -> wfb t' = true.
Proof.
  revert t. induction p as [| c p IH]; intros t Hwf; cbn.
  - now intros [= <-].
  - destruct t as [| es]; [discriminate |].
    destruct (assoc c es) as [t1 |] eqn:Ha; [| discriminate].
    apply IH. apply wfb_dir in Hwf as [_ Hall].
    rewrite Forall_forall in Hall.
    apply assoc_In, list_elem_of_In in Ha. apply (Hall _ Ha).
Qed.


(** *** Writing a file and the walk *)












(** *** Strings and prefixes *)

Lemma startswith_app (x y : str) : startswith (x ++ y) x = true.
Proof.
  induction x as [| a x IH]; cbn; [apply startswith_nil |].
  now rewrite N.eqb_refl, IH.
Qed.

Lemma endswith_app (a s : str) : endswith (a ++ s) s = true.
Proof. unfold endswith. rewrite rev_app_distr. apply startswith_app. Qed.


Lemma prefixb_spec (p q : path) : prefixb p q = true <-> p `prefix_of` q.
Proof.
  revert q. induction p as [| c p IH]; intros q; cbn.
  - split; [intros _; apply prefix_nil | reflexivity].
  - destruct q as [| d q].
    + split; [discriminate |]. intros [k Hk]. discriminate.
    + rewrite andb_true_iff, str_eqb_eq, IH. split.
      * intros [-> H]. now apply prefix_cons.
      * intros [k Hk]. injection Hk as -> ->. split; [reflexivity |].
        now exists k.
Qed.

Lemma prefixb_app (p r : path) : prefixb p (p ++ r) = true.
Proof. apply prefixb_spec. now exists r. Qed.


(** *** Reading and writing files *)

Lemma writable_no_dir `{O : limits} fs p :
  writable fs p = true -> forall es, lookup p fs <> Some (Dir es).
Proof. unfold writable. intros Hw es E. now rewrite E in Hw. Qed.


Lemma open_write_Ok `{O : limits} fs p s fs' :
  open_write fs p s = Ok fs' <->
  (forall es, lookup p fs <> Some (Dir es)) /\
  put p (File (Text s)) fs = Some fs' /\
  writable fs p = true.
Proof.
  unfold open_write. split.
  - destruct (writable fs p) eqn:Hw; [| discriminate].
    destruct (put p _ fs); [| discriminate].
    intros [= ->]. split; [now apply writable_no_dir | auto].
  - now intros (_ & -> & ->).
Qed.


(** *** The first match of a walk *)

Lemma find_name e files f :
  List.find (fun file => str_eqb file e) files = Some f -> f = e /\ In e files.
Proof.
  intros H. apply find_some in H as [Hin H]. apply str_eqb_eq in H.
  now subst.
Qed.

Lemma find_name_In e files :
  In e files -> List.find (fun file => str_eqb file e) files = Some e.
Proof.
  induction files as [| f files IH]; cbn; [tauto |].
  case_str_eqb; [now subst |].
  intros [H | H]; [congruence | auto].
Qed.





Lemma path_cases (p q : path) :
  p = q \/ (exists k, k <> [] /\ q = p ++ k) \/ (exists k, k <> [] /\ p = q ++ k) \/
  (~ p `prefix_of` q /\ ~ q `prefix_of` p).
Proof.
  destruct (decide (p `prefix_of` q)) as [[k Hk] | Hpq].
  - destruct k as [| x k]; [left; now rewrite app_nil_r in Hk |].
    right. left. exists (x :: k). now split.
  - destruct (decide (q `prefix_of` p)) as [[k Hk] | Hqp].
    + destruct k as [| x k]; [left; now rewrite app_nil_r in Hk |].
      right. right. left. exists (x :: k). now split.
    + tauto.
Qed.


(** ... and leaves every other file as it was. *)
Lemma lookup_put_file_other p x t t' q y :
  put p (File x) t = Some t' ->
  (forall es, lookup p t <> Some (Dir es)) ->
  q <> p -> lookup q t = Some (File y) -> lookup q t' = Some (File y).
Proof.
  intros Hput Hno Hne Hq.
  destruct (path_cases p q) as [<- | [(k & Hk & ->) | [(k & Hk & ->) | [H1 H2]]]].
  - congruence.
  - exfalso. rewrite lookup_app in Hq.
    destruct (lookup p t) as [[c | es] |].
    + destruct k; [congruence | discriminate].
    + now apply (Hno es).
    + discriminate.
  - exfalso. apply put_app in Hput as (t1 & t1' & Ht1 & Hp & _); [| assumption].
    apply put_is_dir in Hp as (es & es' & -> & _). congruence.
  - now rewrite (lookup_put_other _ _ _ _ _ Hput H1 H2).
Qed.


End FSProps.

Import FSProps.

(** ** The metadata indexer *)

Module IndexerProps.

Section Run.
Context `{O : limits}.
Variable U : unicode.
Variable L : json_lib.

(** What one line does to the tally, by the record it holds. *)
Lemma process_line_cases f c m dry st line :
  let st' := process_line U L f c m dry st line in
  match record_of U L line with
  | None =>
      success_count st' = success_count st /\
      total_count st' = total_count st /\ tree st' = tree st
  | Some (md, v) =>
      total_count st' = S (total_count st) /\
      match find_crate_file (tree st) c v m with
      | None => success_count st' = success_count st /\ tree st' = tree st
      | Some p =>
          if dry then
            success_count st' = S (success_count st) /\ tree st' = tree st
          else
            match open_write (tree st)
                    (os_path_join (dirname p) [sidecar_filename c v])
                    (dumps L md) with
            | Ok fs' => success_count st' = S (success_count st) /\ tree st' = fs'
            | Raise _ => success_count st' = success_count st /\ tree st' = tree st
            end
      end
  end.
Proof.
  unfold process_line, record_of, candidate.
  destruct (bool_decide (strip U line = [])); cbn [negb andb]; [auto |].
  destruct (startswith _ _ && endswith _ _); cbn [negb]; [| auto].
  destruct (loads L line) as [md |]; [| cbn; auto].
  destruct md as [| b | z | i l | s | l | items]; cbn [get]; try (cbn; now auto).
  destruct (dict_lookup _ items) as [v |]; [| auto].
  destruct (truthy v); cbn [negb]; [| auto].
  cbn [tree success_count total_count log].
  destruct (find_crate_file _ _ _ _) as [p |]; [| cbn; auto].
  destruct dry; cbn [negb]; [cbn; auto |].
  destruct (open_write _ _ _); cbn; auto.
Qed.

End Run.
Lemma assoc_dir_In n es es' : assoc n es = Some (Dir es') -> In n (dirnames es).
Proof.
  intros H. apply assoc_In in H. unfold dirnames, names.
  change n with (fst (n, Dir es')). apply in_map. apply filter_In. auto.
Qed.

Lemma dirname_join (root : path) (n : str) : dirname (root ++ [n]) = root.
Proof. apply removelast_last. Qed.

Lemma basename_join (root : path) (n : str) : basename (root ++ [n]) = n.
Proof. apply last_last. Qed.

Lemma crate_filename_ends c v : endswith (crate_filename c v) (py ".crate") = true.
Proof.
  unfold crate_filename. rewrite !app_assoc. apply endswith_app.
Qed.

Lemma sidecar_filename_ends c v :
  endswith (sidecar_filename c v) (py ".metadata.json") = true.
Proof.
  unfold sidecar_filename. rewrite !app_assoc. apply endswith_app.
Qed.

Lemma os_walk_In fs top e :
  In e (os_walk fs top) ->
  exists t, lookup top fs = Some t /\ In e (walk_node top t).
Proof.
  unfold os_walk. destruct (lookup top fs) as [t |]; [eauto | intros []].
Qed.












Section Dry.
Context `{O : limits}.
Variable U : unicode.
Variable L : json_lib.
Variable mirror_dir : path.




End Dry.

Section Invariant.
Context `{O : limits}.
Variables index_dir mirror_dir : path.
Hypothesis Him : prefixb index_dir mirror_dir = false.
Hypothesis Hmi : prefixb mirror_dir index_dir = false.




End Invariant.

Section Counts.
Context `{O : limits}.
Variable U : unicode.
Variable L : json_lib.
Variables index_dir mirror_dir : path.
Hypothesis Him : prefixb index_dir mirror_dir = false.
Hypothesis Hmi : prefixb mirror_dir index_dir = false.
Variable fs0 : node.








End Counts.

(** *** The walk of the index *)

Lemma collect_In w p :
  In p (collect w) ->
  exists root dirs files file,
    In (root, dirs, files) w /\ excluded root = false /\
    In file files /\ skipped file = false /\ p = root ++ [file].
Proof.
  unfold collect. intros H.
  apply in_flat_map in H as ([[root dirs] files] & Hin & H).
  destruct (excluded root) eqn:He; [destruct H |].
  apply in_flat_map in H as (file & Hf & H).
  destruct (skipped file) eqn:Hs; [destruct H |].
  destruct H as [<- | []]. exists root, dirs, files, file. auto.
Qed.


Lemma startswith_app_l (a b d : str) :
  startswith a d = true -> startswith (a ++ b) d = true.
Proof.
  revert d. induction a as [| x a IH]; intros [| y d]; cbn; try easy.
  - intros _. apply startswith_nil.
  - rewrite !andb_true_iff. intros [H1 H2]. auto.
Qed.

Lemma str_in_app_l (a b d : str) : str_in d a = true -> str_in d (a ++ b) = true.
Proof.
  induction a as [| x a IH]; cbn [str_in app].
  - rewrite orb_false_r. destruct d; [| discriminate].
    intros _. destruct b; reflexivity.
  - rewrite !orb_true_iff. intros [H | H].
    + left. now apply (startswith_app_l (x :: a) b d).
    + right. auto.
Qed.

Lemma str_in_app_r (a b d : str) : str_in d b = true -> str_in d (a ++ b) = true.
Proof.
  intros H. induction a as [| x a IH]; [assumption |].
  cbn [str_in app]. rewrite IH. apply orb_true_r.
Qed.

(** A substring of a component is a substring of the whole path. *)
Lemma str_in_component (d c : str) (root : path) :
  In c root -> str_in d c = true -> str_in d (path_str root) = true.
Proof.
  induction root as [| c1 root IH]; [intros [] |].
  intros [-> | H] Hd.
  - destruct root; [assumption |]. cbn [path_str]. now apply str_in_app_l.
  - destruct root as [| c2 root]; [destruct H |].
    change (path_str (c1 :: c2 :: root))
      with (c1 ++ os_sep ++ path_str (c2 :: root)).
    apply str_in_app_r, str_in_app_r. auto.
Qed.

(** C10. A metadata file is left out of the run as soon as one of the six
    strings occurs anywhere in the path of its directory, as a substring:
    no file of such a directory is among the files the run processes. In
    particular a directory component that merely contains one of them, such
    as pipeline or python-utils, excludes everything below it. *)
Theorem excluded_by_substring (fs : node) (index_dir root : path)
  (file d : str) :
  In d excluded_dirs -> str_in d (path_str root) = true ->
  ~ In (os_path_join root [file]) (metadata_files fs index_dir) /\
  (forall component root',
     In component root' -> str_in d component = true ->
     ~ In (os_path_join root' [file]) (metadata_files fs index_dir)) /\
  str_in (py "pip") (py "pipeline") = true /\
  str_in (py "python") (py "python-utils") = true /\
  ~ In (py "pipeline") excluded_dirs /\ ~ In (py "python-utils") excluded_dirs.
Proof.
  intros Hd Hin.
  assert (Hex : forall r, str_in d (path_str r) = true ->
                  ~ In (os_path_join r [file]) (metadata_files fs index_dir)).
  { intros r Hr H. unfold metadata_files in H.
    apply collect_In in H as (r' & dirs & files & f' & _ & He & _ & _ & Heq).
    apply app_inj_tail in Heq as [<- _].
    unfold excluded in He.
    assert (Ht : existsb (fun d => str_in d (path_str r)) excluded_dirs = true)
      by (apply existsb_exists; eauto).
    congruence. }
  split; [auto |]. split.
  - intros component root' Hc Hs. apply Hex.
    now apply (str_in_component d component).
  - repeat split; try reflexivity; intros H; vm_compute in H;
      repeat (destruct H as [H | H]; [discriminate |]); destruct H.
Qed.

Lemma excluded_by_substring_witness :
  ~ In (os_path_join [py "index"; py "pipeline"; py "fo"] [py "foo"])
       (metadata_files
          (Dir [(py "index",
                 Dir [(py "pipeline",
                       Dir [(py "fo", Dir [(py "foo", File (Text []))])])])])
          [py "index"]).
Proof.
  apply (excluded_by_substring _ [py "index"] _ (py "foo") (py "pip")).
  - cbn. tauto.
  - reflexivity.
Defined.


Section Sidecar.
Context `{O : limits}.
Variable U : unicode.
Variable L : json_lib.
Variables index_dir mirror_dir : path.
Hypothesis Him : prefixb index_dir mirror_dir = false.
Hypothesis Hmi : prefixb mirror_dir index_dir = false.
Variable fs0 : node.
Variable out : path.









End Sidecar.






























End IndexerProps.

Import IndexerProps.

(** ** The relocator *)

Module RelocatorProps.

(** *** Listings under removal *)

Lemma assoc_del_entry c x es :
  assoc x (del_entry c es) = if str_eqb c x then None else assoc x es.
Proof.
  unfold del_entry. induction es as [| [c1 t1] es IH]; cbn [List.filter assoc fst].
  - now destruct (str_eqb c x).
  - destruct (str_eqb c c1) eqn:E1; cbn [negb assoc].
    + apply str_eqb_eq in E1. subst c1. rewrite IH.
      destruct (str_eqb c x) eqn:E2; [reflexivity |].
      apply str_eqb_neq in E2.
      assert (E3 : str_eqb x c = false) by (apply str_eqb_neq; congruence).
      now rewrite E3.
    + rewrite IH. destruct (str_eqb c x) eqn:E2; [| reflexivity].
      apply str_eqb_eq in E2. subst x. now rewrite E1.
Qed.


Lemma del_single c t t' :
  del [c] t = Some t' ->
  exists es, t = Dir es /\ t' = Dir (del_entry c es).
Proof.
  destruct t as [| es]; cbn; [discriminate |].
  destruct (assoc c es); [| discriminate]. intros [= <-]. eauto.
Qed.

Lemma del_cons_eq c c1 p es :
  del (c :: c1 :: p) (Dir es) =
  match assoc c es with
  | Some t1 =>
      match del (c1 :: p) t1 with
      | Some t'' => Some (Dir (set_entry c t'' es))
      | None => None
      end
  | None => None
  end.
Proof. reflexivity. Qed.

Lemma del_cons c p t t' :
  p <> [] -> del (c :: p) t = Some t' ->
  exists es t1 t1',
    t = Dir es /\ assoc c es = Some t1 /\ del p t1 = Some t1' /\
    t' = Dir (set_entry c t1' es).
Proof.
  intros Hp. destruct p as [| c1 p]; [congruence |].
  destruct t as [| es]; [discriminate |].
  rewrite del_cons_eq.
  destruct (assoc c es) as [t1 |] eqn:Ha; [| discriminate].
  destruct (del (c1 :: p) t1) as [t1' |] eqn:E; [| discriminate].
  intros [= <-]. exists es, t1, t1'. auto.
Qed.


(** *** The top level of the source directory *)

Lemma top_files_listing fs b es :
  lookup b fs = Some (Dir es) -> top_files fs b = Ok (file_names es).
Proof.
  intros H. unfold top_files, listdir. rewrite H. cbn [bind]. f_equal.
  unfold file_names. apply filter_ext. intros x.
  unfold isfile, os_path_join, file_entry. rewrite lookup_app, H. cbn.
  now destruct (assoc x es).
Qed.

Lemma top_files_Ok fs b l :
  top_files fs b = Ok l ->
  exists es, lookup b fs = Some (Dir es) /\ l = file_names es.
Proof.
  unfold top_files, listdir.
  destruct (lookup b fs) as [[c | es] |] eqn:H; try discriminate.
  intros H1. exists es. split; [reflexivity |].
  pose proof (H2 := top_files_listing fs b es H).
  unfold top_files, listdir in H2. rewrite H in H2. congruence.
Qed.

Lemma file_names_same es es' :
  names es' = names es ->
  (forall x, file_entry es' x = file_entry es x) ->
  file_names es' = file_names es.
Proof.
  intros Hn Hk. unfold file_names. rewrite Hn. now apply filter_ext.
Qed.




(** *** Provisioning the buckets *)

Lemma makedirs_cons c p es :
  makedirs (c :: p) (Dir es) =
  match assoc c es with
  | Some t' => t'' <-! makedirs p t'; Ok (Dir (set_entry c t'' es))
  | None => Ok (Dir (set_entry c (new_dirs p) es))
  end.
Proof. reflexivity. Qed.




Section Provision.
Variable b : path.
Variable files0 : list str.




Lemma first_levels_keys :
  Forall (fun k => exists groups, getitem get_letter_groups k = Ok groups)
         first_levels.
Proof. repeat (apply Forall_cons; split; [now eexists |]). constructor. Qed.



End Provision.

(** *** Classifying and moving *)

(** Every bucket lies two levels below the base directory. *)
Lemma get_target_directory_shape U filename b p :
  get_target_directory U filename b = Ok p ->
  exists x y, p = os_path_join b [x; y].
Proof.
  unfold get_target_directory. destruct filename as [| c0 rest];
    [intros [= <-]; eauto |].
  cbv zeta.
  repeat match goal with
         | |- context [if ?c then _ else _] => destruct c
         | |- context [bind ?m _] => destruct m; cbn [bind]
         | |- context [match List.find ?f ?l with _ => _ end] =>
             destruct (List.find f l)
         end;
    try discriminate; intros [= <-]; eauto.
Qed.









Lemma isfile_entry fs b es k :
  lookup b fs = Some (Dir es) -> isfile fs (os_path_join b [k]) = file_entry es k.
Proof.
  intros Hl. unfold isfile, os_path_join, file_entry.
  rewrite lookup_app, Hl. cbn. now destruct (assoc k es).
Qed.


(** With a file named A in the source directory a run that is not a
    simulation raises while it provisions the buckets, and returns no
    pair. *)
Lemma relocator_raises_on_bucket_name :
  top_files ex_flat_blocked [py "m"] = Ok [py "abc-0.1.0.crate"; py "A"] /\
  organize_files cpython ex_flat_blocked [py "m"] false = Raise OSError.
Proof. split; reflexivity. Qed.

End RelocatorProps.

Import RelocatorProps.

(** * Further properties *)

(** ** The classifier *)

Module ClassifierMore.

Lemma str_eqb_single (x d : N) : str_eqb [x] [d] = (x =? d).
Proof.
  destruct (N.eqb_spec x d) as [-> | Hne].
  - apply str_eqb_refl.
  - apply str_eqb_neq. congruence.
Qed.

(** The band the table gives to a first character that is not a letter. *)
Lemma find_band (first_char : str) :
  match List.find (fun g => py_in first_char (group_range g)) number_groups with
  | Some g => group_name g
  | None => py "0-2"
  end = band_of first_char.
Proof.
  destruct first_char as [| x [| y s]].
  - reflexivity.
  - unfold number_groups, band_of.
    cbn [List.find group_range py_in snd list_in existsb].
    change (py "0") with [48]. change (py "1") with [49].
    change (py "2") with [50]. change (py "3") with [51].
    change (py "4") with [52]. change (py "5") with [53].
    change (py "6") with [54]. change (py "7") with [55].
    change (py "8") with [56]. change (py "9") with [57].
    rewrite !str_eqb_single.
    repeat match goal with
           | |- context [x =? ?d] =>
               destruct (N.eqb_spec x d); [subst x; reflexivity |]
           end.
    cbn [orb group_name fst].
    repeat match goal with
           | |- context [?a <=? ?b] => destruct (N.leb_spec a b)
           end; cbn [andb]; try reflexivity; lia.
  - unfold number_groups, list_in, str_eqb.
    cbn [List.find group_range py_in snd list_in existsb].
    unfold str_eqb. rewrite !bool_decide_eq_false_2 by discriminate.
    reflexivity.
Qed.

(** X1. A name whose uppercased first character is not found in the
    alphabet goes to 0-9 when that character is a digit, under the band
    that holds it (0-2, 3-5 or 6-9; the first band, 0-2, for a digit that
    is none of 0 to 9), and to OTHER/OTHER otherwise; each of the ten
    digits is listed in the band it is sent to. *)
Theorem classify_non_letter (U : unicode) (c0 : N) (rest : str) (base_dir : path) :
  str_in (upper U c0) ascii_uppercase = false ->
  get_target_directory U (c0 :: rest) base_dir =
  Ok (os_path_join base_dir
        (if str_isdigit U (upper U c0)
         then [py "0-9"; band_of (upper U c0)]
         else [py "OTHER"; py "OTHER"])) /\
  (forall x, 48 <= x <= 57 ->
     exists items,
       In (band_of [x], [], Items items) number_groups /\ In [x] items).
Proof.
  intros E. split.
  - unfold get_target_directory. rewrite E.
    destruct (str_isdigit U (upper U c0)).
    + change (str_in (py "0-9") ascii_uppercase) with false.
      change (str_eqb (py "0-9") (py "0-9")) with true.
      cbv zeta. cbv iota.
      change (getitem get_letter_groups (py "0-9")) with (Ok number_groups).
      cbn [bind]. rewrite <- find_band.
      destruct (List.find _ number_groups); reflexivity.
    + change (str_in (py "OTHER") ascii_uppercase) with false.
      change (str_eqb (py "OTHER") (py "0-9")) with false.
      reflexivity.
  - intros x Hx. pattern x. apply digit_cases; [| assumption].
    repeat (apply Forall_cons; split;
            [eexists; split; [vm_compute; tauto | vm_compute; tauto] |]).
    constructor.
Qed.

Lemma classify_non_letter_witness :
  get_target_directory cpython (0xB2 :: py "x") [py "m"]
    = Ok [py "m"; py "0-9"; py "0-2"] /\
  get_target_directory cpython (py "4ever") [py "m"]
    = Ok [py "m"; py "0-9"; py "3-5"] /\
  get_target_directory cpython (py "_x") [py "m"]
    = Ok [py "m"; py "OTHER"; py "OTHER"].
Proof.
  split; [| split].
  - apply (classify_non_letter cpython 0xB2 (py "x") [py "m"]). reflexivity.
  - apply (classify_non_letter cpython 52 (py "ever") [py "m"]). reflexivity.
  - apply (classify_non_letter cpython 95 (py "x") [py "m"]). reflexivity.
Defined.

(** X2. The bucket depends on the uppercased first two characters only:
    two names of length at least two whose first and second characters
    have the same uppercase forms share their bucket (or fail alike), and
    a name of one character is classified like the same character
    followed by any character that uppercases to A. *)
Theorem classify_two_characters (U : unicode) (c0 c0' c1 c1' : N)
  (rest rest' : str) (base_dir : path) :
  upper U c0 = upper U c0' ->
  (upper U c1 = upper U c1' ->
   get_target_directory U (c0 :: c1 :: rest) base_dir =
   get_target_directory U (c0' :: c1' :: rest') base_dir) /\
  (upper U c1 = py "A" ->
   get_target_directory U [c0] base_dir =
   get_target_directory U (c0' :: c1 :: rest) base_dir).
Proof.
  intros H0. split; intros H1; unfold get_target_directory;
    rewrite H0; rewrite H1; reflexivity.
Qed.

Lemma classify_two_characters_witness :
  get_target_directory cpython (py "serde-1.0.0.crate") [py "m"] =
  get_target_directory cpython (py "SErial") [py "m"] /\
  get_target_directory cpython (py "s") [py "m"] =
  get_target_directory cpython (py "Sabc") [py "m"].
Proof.
  split.
  - exact (proj1 (classify_two_characters cpython 115 83 101 69
                    (py "rde-1.0.0.crate") (py "rial") [py "m"] eq_refl)
                 eq_refl).
  - exact (proj2 (classify_two_characters cpython 115 83 97 97
                    (py "bc") [] [py "m"] eq_refl)
                 eq_refl).
Defined.

(** Every bucket the classifier returns is a row of the partition
    table. *)
Lemma get_target_directory_table U filename base_dir p :
  get_target_directory U filename base_dir = Ok p ->
  exists k groups g,
    get_letter_groups !! k = Some groups /\ In g groups /\
    p = os_path_join base_dir [k; group_name g].
Proof.
  assert (Hother : exists k groups g,
            get_letter_groups !! k = Some groups /\ In g groups /\
            os_path_join base_dir [py "OTHER"; py "OTHER"]
            = os_path_join base_dir [k; group_name g]).
  { exists (py "OTHER"), [(py "OTHER", [], Items [])], (py "OTHER", [], Items []).
    split; [reflexivity |]. split; [now left | reflexivity]. }
  unfold get_target_directory. destruct filename as [| c0 rest].
  { intros [= <-]. exact Hother. }
  assert (Hdefault : forall k p,
            (groups <-! getitem get_letter_groups k;
             g <-! first_item groups;
             Ok (os_path_join base_dir [k; group_name g])) = Ok p ->
            exists k groups g,
              get_letter_groups !! k = Some groups /\ In g groups /\
              p = os_path_join base_dir [k; group_name g]).
  { intros k q. unfold getitem.
    destruct (get_letter_groups !! k) as [groups |] eqn:Hk; [| discriminate].
    cbn [bind]. destruct groups as [| g groups]; [discriminate |].
    cbn [first_item bind]. intros [= <-].
    exists k, (g :: groups), g. split; [assumption |]. split; [now left | reflexivity]. }
  assert (Hfind : forall k x p,
            (groups <-! getitem get_letter_groups k;
             match List.find (fun g => py_in x (group_range g)) groups with
             | Some g => Ok (os_path_join base_dir [k; group_name g])
             | None =>
                 g <-! first_item groups;
                 Ok (os_path_join base_dir [k; group_name g])
             end) = Ok p ->
            exists k groups g,
              get_letter_groups !! k = Some groups /\ In g groups /\
              p = os_path_join base_dir [k; group_name g]).
  { intros k x q. unfold getitem.
    destruct (get_letter_groups !! k) as [groups |] eqn:Hk; [| discriminate].
    cbn [bind]. destruct (List.find _ groups) as [g |] eqn:Hf.
    - intros [= <-]. apply find_some in Hf as [Hin _].
      exists k, groups, g. auto.
    - destruct groups as [| g groups]; [discriminate |].
      cbn [first_item bind]. intros [= <-].
      exists k, (g :: groups), g. split; [assumption |].
      split; [now left | reflexivity]. }
  cbv zeta. destruct (str_in (upper U c0) ascii_uppercase) eqn:E.
  - rewrite E.
    match goal with |- (if ?c then _ else _) = _ -> _ => destruct c end;
      [| apply Hdefault].
    intros H. pose proof (Hd := Hdefault (upper U c0) p).
    unfold getitem in H, Hd. revert H Hd.
    destruct (get_letter_groups !! upper U c0) as [groups |] eqn:Hk;
      intros H Hd; [| discriminate H].
    cbn [bind] in H, Hd.
    destruct (List.find _ groups) as [g |] eqn:Hf; [| now apply Hd].
    injection H as <-. apply find_some in Hf as [Hin _].
    exists (upper U c0), groups, g. auto.
  - destruct (str_isdigit U (upper U c0)).
    + change (str_in (py "0-9") ascii_uppercase) with false.
      change (str_eqb (py "0-9") (py "0-9")) with true.
      cbv iota. apply Hfind.
    + change (str_in (py "OTHER") ascii_uppercase) with false.
      change (str_eqb (py "OTHER") (py "0-9")) with false.
      intros [= <-]. exact Hother.
Qed.

(** X3. Whenever the first character of a name uppercases to a single
    character, the classifier returns, and what it returns is a row of
    the partition table: the base directory, one of the 28 first-level
    names, and the name of one of the groups the table lists under it.
    The same holds for the empty name. *)
Theorem classify_total_on_single (U : unicode) (filename : str)
  (base_dir : path) :
  match filename with
  | [] => True
  | c0 :: _ => length (upper U c0) = 1%nat
  end ->
  exists k groups g,
    In k first_levels /\ get_letter_groups !! k = Some groups /\ In g groups /\
    get_target_directory U filename base_dir
    = Ok (os_path_join base_dir [k; group_name g]).
Proof.
  intros Hlen.
  assert (Hok : exists p, get_target_directory U filename base_dir = Ok p).
  { destruct filename as [| c0 rest]; [now eexists |].
    destruct (get_target_directory U (c0 :: rest) base_dir) as [p | e] eqn:E;
      [now eexists |].
    exfalso.
    destruct (proj1 (classify_raises_iff U c0 rest base_dir)) as [_ Hne];
      [now exists e | congruence]. }
  destruct Hok as [p Hp]. pose proof (Ht := Hp).
  apply get_target_directory_table in Ht as (k & groups & g & Hk & Hin & ->).
  exists k, groups, g. repeat split; try assumption.
  exact (letter_groups_keys k groups Hk).
Qed.

Lemma classify_total_on_single_witness :
  exists k groups g,
    In k first_levels /\ get_letter_groups !! k = Some groups /\ In g groups /\
    get_target_directory cpython (py "serde-1.0.0.crate") [py "m"]
    = Ok (os_path_join [py "m"] [k; group_name g]).
Proof.
  apply (classify_total_on_single cpython (py "serde-1.0.0.crate") [py "m"]).
  reflexivity.
Defined.

End ClassifierMore.

Import ClassifierMore.

(** ** Provisioning and moving *)

Module RelocatorMore.

(** *** Writing a file and the rest of the tree *)

Lemma isdir_put_file p x t t' q :
  put p (File x) t = Some t' ->
  (forall es, lookup p t <> Some (Dir es)) ->
  isdir t' q = isdir t q.
Proof.
  intros Hput Hno. unfold isdir.
  destruct (path_cases p q) as [<- | [(k & Hk & ->) | [(k & Hk & ->) | [H1 H2]]]].
  - rewrite (lookup_put_same _ _ _ _ Hput).
    destruct (lookup p t) as [[c | es] |]; [reflexivity | | reflexivity].
    now destruct (Hno es).
  - rewrite !lookup_app, (lookup_put_same _ _ _ _ Hput).
    destruct k as [| d k]; [congruence |]. cbn [lookup].
    destruct (lookup p t) as [[c | es] |]; [reflexivity | | reflexivity].
    now destruct (Hno es).
  - apply put_app in Hput as (t1 & t1' & -> & Hp & ->); [| assumption].
    now apply put_is_dir in Hp as (es & es' & -> & ->).
  - now rewrite (lookup_put_other _ _ _ _ _ Hput H1 H2).
Qed.

Lemma lookup_put_file_new p x t t' q y :
  put p (File x) t = Some t' ->
  q <> p -> lookup q t' = Some (File y) -> lookup q t = Some (File y).
Proof.
  intros Hput Hne Hq.
  destruct (path_cases p q) as [<- | [(k & Hk & ->) | [(k & Hk & ->) | [H1 H2]]]].
  - congruence.
  - exfalso. rewrite lookup_app, (lookup_put_same _ _ _ _ Hput) in Hq.
    destruct k; [congruence | discriminate].
  - exfalso. apply put_app in Hput as (t1 & t1' & _ & Hp & Ht1'); [| assumption].
    apply put_is_dir in Hp as (es & es' & _ & ->). congruence.
  - now rewrite <- (lookup_put_other _ _ _ _ _ Hput H1 H2).
Qed.

(** *** Frames *)

Lemma keeps_refl t : keeps t t.
Proof.
  intros q n H. destruct n; [assumption |]. unfold isdir. now rewrite H.
Qed.

Lemma keeps_trans t1 t2 t3 : keeps t1 t2 -> keeps t2 t3 -> keeps t1 t3.
Proof.
  intros H12 H23 q n H. specialize (H12 q n H). destruct n as [c | es].
  - exact (H23 q (File c) H12).
  - unfold isdir in H12.
    destruct (lookup q t2) as [[c | es2] |] eqn:E; try discriminate.
    exact (H23 q (Dir es2) E).
Qed.

Lemma keeps_exists t t' q : keeps t t' -> exists_ t q = true -> exists_ t' q = true.
Proof.
  unfold exists_. intros Hk H.
  destruct (lookup q t) as [n |] eqn:E; [| discriminate].
  specialize (Hk q n E). destruct n.
  - now rewrite Hk.
  - unfold isdir in Hk. now destruct (lookup q t').
Qed.

Lemma no_new_file_refl t : no_new_file t t.
Proof. intros q c H. exact H. Qed.

Lemma no_new_file_trans t1 t2 t3 :
  no_new_file t1 t2 -> no_new_file t2 t3 -> no_new_file t1 t3.
Proof. intros H12 H23 q c H. auto. Qed.

(** Replacing an entry by a tree that keeps it keeps the directory. *)
Lemma keeps_set_entry c t1 t1' es :
  assoc c es = Some t1 -> keeps t1 t1' ->
  keeps (Dir es) (Dir (set_entry c t1' es)).
Proof.
  intros Ha Hk q n. destruct q as [| d q]; cbn [lookup].
  - intros [= <-]. reflexivity.
  - destruct (decide (c = d)) as [<- | Hne].
    + rewrite Ha. intros H. specialize (Hk q n H).
      destruct n; unfold isdir in *; cbn [lookup];
        now rewrite assoc_set_entry_same.
    + destruct (assoc d es) as [t2 |] eqn:Hd; [| discriminate].
      intros H. destruct n; unfold isdir; cbn [lookup];
        rewrite assoc_set_entry_other, Hd by assumption; now rewrite H.
Qed.

Lemma keeps_add_entry c t1 es :
  assoc c es = None -> keeps (Dir es) (Dir (set_entry c t1 es)).
Proof.
  intros Ha q n. destruct q as [| d q]; cbn [lookup].
  - intros [= <-]. reflexivity.
  - destruct (decide (c = d)) as [<- | Hne]; [now rewrite Ha |].
    destruct (assoc d es) as [t2 |] eqn:Hd; [| discriminate].
    intros H. destruct n; unfold isdir; cbn [lookup];
      rewrite assoc_set_entry_other, Hd by assumption; now rewrite H.
Qed.

Lemma no_new_file_set_entry c t1 t1' es :
  assoc c es = Some t1 -> no_new_file t1 t1' ->
  no_new_file (Dir es) (Dir (set_entry c t1' es)).
Proof.
  intros Ha Hk q x. destruct q as [| d q]; cbn [lookup]; [discriminate |].
  destruct (decide (c = d)) as [<- | Hne].
  - rewrite assoc_set_entry_same, Ha. apply Hk.
  - now rewrite assoc_set_entry_other.
Qed.

Lemma lookup_new_dirs p : lookup p (new_dirs p) = Some (Dir []).
Proof.
  induction p as [| c p IH]; [reflexivity |].
  cbn [new_dirs lookup assoc]. now rewrite str_eqb_refl.
Qed.

Lemma new_dirs_no_file p q x : lookup q (new_dirs p) <> Some (File x).
Proof.
  revert q. induction p as [| c p IH]; intros q.
  - destruct q; cbn; discriminate.
  - destruct q as [| d q]; cbn [new_dirs lookup assoc]; [discriminate |].
    destruct (str_eqb d c); [apply IH | discriminate].
Qed.

(** *** [os.makedirs] *)

Lemma makedirs_nil t : makedirs [] t = Raise OSError.
Proof. now destruct t. Qed.

Lemma makedirs_file p x : makedirs p (File x) = Raise OSError.
Proof. now destruct p. Qed.


Lemma makedirs_frame p : forall t t',
  makedirs p t = Ok t' ->
  keeps t t' /\ no_new_file t t' /\ isdir t' p = true.
Proof.
  induction p as [| c p IH]; intros t t'.
  - rewrite makedirs_nil. discriminate.
  - destruct t as [x | es]; [discriminate |].
    rewrite makedirs_cons. destruct (assoc c es) as [t1 |] eqn:Ha.
    + destruct (makedirs p t1) as [t1' | e'] eqn:E; cbn [bind]; [| discriminate].
      intros [= <-]. destruct (IH t1 t1' E) as (H1 & H2 & H3).
      split; [now apply (keeps_set_entry c t1) |].
      split; [now apply (no_new_file_set_entry c t1) |].
      unfold isdir in *. cbn [lookup]. now rewrite assoc_set_entry_same.
    + intros [= <-]. split; [now apply keeps_add_entry |]. split.
      * intros q x. destruct q as [| d q]; cbn [lookup]; [discriminate |].
        destruct (decide (c = d)) as [<- | Hne].
        -- rewrite assoc_set_entry_same. intros H.
           now apply new_dirs_no_file in H.
        -- now rewrite assoc_set_entry_other.
      * unfold isdir. cbn [lookup].
        now rewrite assoc_set_entry_same, lookup_new_dirs.
Qed.

(** No directory can be made below a regular file. *)
Lemma makedirs_below_file p q : forall t x,
  lookup p t = Some (File x) -> makedirs (p ++ q) t = Raise OSError.
Proof.
  induction p as [| c p IH]; intros t x H.
  - cbn in H. injection H as ->. apply makedirs_file.
  - destruct t as [y | es]; [discriminate |]. cbn [lookup] in H.
    change ((c :: p) ++ q) with (c :: (p ++ q)). rewrite makedirs_cons.
    destruct (assoc c es) as [t1 |]; [| discriminate].
    now rewrite (IH t1 x H).
Qed.

(** *** Loops in the error monad *)

Lemma foldM_post {S A : Type} (f : S -> A -> result S)
  (R : S -> S -> Prop) (Q : A -> S -> Prop) :
  (forall s, R s s) ->
  (forall s1 s2 s3, R s1 s2 -> R s2 s3 -> R s1 s3) ->
  (forall a s s', Q a s -> R s s' -> Q a s') ->
  forall l,
    (forall s a s', In a l -> f s a = Ok s' -> R s s' /\ Q a s') ->
    forall s s', foldM f s l = Ok s' -> R s s' /\ forall a, In a l -> Q a s'.
Proof.
  intros Hrefl Htrans Hmono. induction l as [| a l IH]; intros Hstep s s'.
  - cbn. intros [= <-]. split; [apply Hrefl | intros a []].
  - cbn [foldM]. destruct (f s a) as [s1 | e] eqn:E; cbn [bind]; [| discriminate].
    intros H. destruct (Hstep s a s1 (or_introl eq_refl) E) as [H1 H2].
    destruct (IH (fun s a' s' Hin => Hstep s a' s' (or_intror Hin)) s1 s' H)
      as [H3 H4].
    split; [eauto |]. intros a' [<- | Hin]; eauto.
Qed.


Lemma foldM_skip {S A : Type} (f : S -> A -> result S) (s : S) (l : list A) :
  (forall a, In a l -> f s a = Ok s) -> foldM f s l = Ok s.
Proof.
  induction l as [| a l IH]; intros H; [reflexivity |].
  cbn [foldM]. rewrite (H a (or_introl eq_refl)). cbn [bind].
  apply IH. intros a' Hin. apply H. now right.
Qed.

(** *** Provisioning, step by step *)

Lemma grows_refl t : grows t t.
Proof. split; [apply keeps_refl | apply no_new_file_refl]. Qed.

Lemma grows_trans t1 t2 t3 : grows t1 t2 -> grows t2 t3 -> grows t1 t3.
Proof.
  intros [H1 H2] [H3 H4].
  split; [eapply keeps_trans | eapply no_new_file_trans]; eassumption.
Qed.

Lemma create_second_level_frame d fs g fs' :
  create_second_level d fs g = Ok fs' ->
  grows fs fs' /\ exists_ fs' (os_path_join d [group_name g]) = true.
Proof.
  unfold create_second_level.
  destruct (exists_ fs (os_path_join d [group_name g])) eqn:E; cbn [negb].
  - intros [= <-]. split; [apply grows_refl | assumption].
  - intros H. apply makedirs_frame in H as (H1 & H2 & H3).
    split; [now split |]. unfold exists_, isdir in *.
    now destruct (lookup _ fs').
Qed.


Lemma provisioned_grows b k fs fs' :
  provisioned b k fs -> grows fs fs' -> provisioned b k fs'.
Proof.
  intros [H1 H2] [Hk _]. split.
  - now apply (keeps_exists fs).
  - intros groups g Hg Hin. apply (keeps_exists fs); eauto.
Qed.

Lemma create_first_level_frame b fs k fs' :
  create_first_level b fs k = Ok fs' -> grows fs fs' /\ provisioned b k fs'.
Proof.
  unfold create_first_level.
  set (first_dir := os_path_join b [k]).
  destruct (if negb (exists_ fs first_dir) then makedirs first_dir fs else Ok fs)
    as [fs1 | e] eqn:E1; cbn [bind]; [| discriminate].
  assert (H1 : grows fs fs1 /\ exists_ fs1 first_dir = true).
  { destruct (exists_ fs first_dir) eqn:Ex; cbn [negb] in E1.
    - injection E1 as <-. split; [apply grows_refl | assumption].
    - apply makedirs_frame in E1 as (H1 & H2 & H3). split; [now split |].
      unfold exists_, isdir in *. now destruct (lookup _ fs1). }
  destruct H1 as [Hg1 Hex]. unfold getitem.
  destruct (get_letter_groups !! k) as [groups |] eqn:Hk; cbn [bind];
    [| discriminate].
  intros H.
  apply (foldM_post (create_second_level first_dir) grows
           (fun g s => exists_ s (os_path_join first_dir [group_name g]) = true))
    in H.
  - destruct H as [Hg2 Hall]. split; [now apply (grows_trans fs fs1) |]. split.
    + apply (keeps_exists fs1); [apply Hg2 | assumption].
    + intros groups' g Hg' Hin. rewrite Hk in Hg'. injection Hg' as <-.
      specialize (Hall g Hin).
      unfold first_dir, os_path_join in Hall. now rewrite <- app_assoc in Hall.
  - apply grows_refl.
  - apply grows_trans.
  - intros g s s' Hq [Hkeep _]. now apply (keeps_exists s).
  - intros s g s' _. apply create_second_level_frame.
Qed.


Lemma create_directories_frame fs b fs' :
  create_directories fs b = Ok fs' ->
  grows fs fs' /\ forall k, In k first_levels -> provisioned b k fs'.
Proof.
  unfold create_directories. apply foldM_post.
  - apply grows_refl.
  - apply grows_trans.
  - intros k s s'. apply provisioned_grows.
  - intros s k s' _. apply create_first_level_frame.
Qed.

Lemma first_levels_groups :
  Forall (fun k => exists g groups, get_letter_groups !! k = Some (g :: groups))
         first_levels.
Proof. repeat (apply Forall_cons; split; [now eexists; eexists |]). constructor. Qed.

(** *** Provisioning as a whole *)


(** X4. What provisioning does to the tree it is given: every file
    stays where it is with its content, every directory stays a
    directory, and no file is created. *)
Theorem provisioning_frame (fs : node) (base_dir : path) (fs' : node) :
  create_directories fs base_dir = Ok fs' ->
  (forall q c, lookup q fs = Some (File c) <-> lookup q fs' = Some (File c)) /\
  (forall q, isdir fs q = true -> isdir fs' q = true) /\
  (forall q, exists_ fs q = true -> exists_ fs' q = true).
Proof.
  intros H. apply create_directories_frame in H as [[Hk Hn] _].
  split; [| split].
  - intros q c. split; [apply (Hk q (File c)) | apply Hn].
  - intros q. unfold isdir at 1.
    destruct (lookup q fs) as [[c | es] |] eqn:E; try discriminate.
    intros _. exact (Hk q (Dir es) E).
  - intros q. now apply keeps_exists.
Qed.

Lemma provisioning_frame_witness :
  lookup [py "m"; py "Qx"] ex_provisioned = Some (File Blob) /\
  isdir ex_provisioned [py "m"; py "sub"] = true.
Proof.
  destruct (provisioning_frame ex_flat [py "m"] ex_provisioned)
    as (H1 & H2 & _); [vm_compute; reflexivity |].
  split.
  - apply H1. reflexivity.
  - apply H2. reflexivity.
Defined.

(** X5. After provisioning, every directory the classifier can return
    exists; it is a directory unless a regular file stood there before. *)
Theorem buckets_provisioned (U : unicode) (fs : node) (base_dir : path)
  (fs' : node) (filename : str) (p : path) :
  create_directories fs base_dir = Ok fs' ->
  get_target_directory U filename base_dir = Ok p ->
  exists_ fs' p = true /\ (isfile fs p = false -> isdir fs' p = true).
Proof.
  intros Hc Ht.
  apply get_target_directory_table in Ht as (k & groups & g & Hk & Hin & ->).
  apply create_directories_frame in Hc as [[_ Hn] Hall].
  destruct (Hall k (letter_groups_keys k groups Hk)) as [_ Hp].
  specialize (Hp groups g Hk Hin).
  split; [assumption |]. unfold exists_, isfile, isdir in *.
  destruct (lookup _ fs') as [[c | es] |] eqn:E; try discriminate; [| reflexivity].
  now rewrite (Hn _ c E).
Qed.

Lemma buckets_provisioned_witness :
  exists_ ex_provisioned [py "m"; py "A"; py "AA-AD"] = true /\
  (isfile ex_flat [py "m"; py "A"; py "AA-AD"] = false ->
   isdir ex_provisioned [py "m"; py "A"; py "AA-AD"] = true).
Proof.
  apply (buckets_provisioned cpython ex_flat [py "m"] ex_provisioned
           (py "abc-0.1.0.crate")).
  - vm_compute. reflexivity.
  - vm_compute. reflexivity.
Defined.

(** X6. Provisioning a tree that has been provisioned creates nothing:
    the second call returns the tree as it is. *)
Theorem provisioning_idempotent (fs : node) (base_dir : path) (fs' : node) :
  create_directories fs base_dir = Ok fs' ->
  create_directories fs' base_dir = Ok fs'.
Proof.
  intros H. apply create_directories_frame in H as [_ Hall].
  unfold create_directories. apply foldM_skip. intros k Hk.
  destruct (Hall k Hk) as [H1 H2]. unfold create_first_level.
  rewrite H1. cbn [negb bind].
  pose proof (Hkeys := first_levels_keys). rewrite Forall_forall in Hkeys.
  destruct (Hkeys k) as [groups Hg]; [now apply list_elem_of_In |].
  rewrite Hg. cbn [bind]. apply foldM_skip. intros g Hin.
  unfold create_second_level, getitem in *.
  destruct (get_letter_groups !! k) as [groups' |] eqn:E; [| discriminate].
  injection Hg as ->. specialize (H2 groups g eq_refl Hin).
  unfold os_path_join in *. rewrite <- app_assoc. cbn [app].
  now rewrite H2.
Qed.

Lemma provisioning_idempotent_witness :
  create_directories ex_provisioned [py "m"] = Ok ex_provisioned.
Proof.
  apply (provisioning_idempotent ex_flat). vm_compute. reflexivity.
Defined.

(** Provisioning succeeds only when no regular file has the name of a
    first-level directory. *)
Lemma create_directories_free fs b fs' k :
  create_directories fs b = Ok fs' -> In k first_levels ->
  isfile fs (os_path_join b [k]) = false.
Proof.
  intros Hc Hk.
  destruct (isfile fs (os_path_join b [k])) eqn:E; [| reflexivity].
  exfalso. apply create_directories_frame in Hc as [[Hkeep _] Hall].
  destruct (Hall k Hk) as [_ Hp].
  pose proof (Hgs := first_levels_groups). rewrite Forall_forall in Hgs.
  destruct (Hgs k) as (g & groups & Hg); [now apply list_elem_of_In |].
  specialize (Hp (g :: groups) g Hg (or_introl eq_refl)).
  unfold isfile in E.
  destruct (lookup (os_path_join b [k]) fs) as [[c | es] |] eqn:El;
    try discriminate.
  pose proof (Hf := Hkeep _ (File c) El). cbn beta iota in Hf.
  unfold exists_, os_path_join in Hp, Hf.
  change [k; group_name g] with ([k] ++ [group_name g]) in Hp.
  rewrite app_assoc, lookup_app, Hf in Hp. discriminate Hp.
Qed.



(** *** Removal and the rest of the tree *)

Lemma assoc_is_Some_del c es : is_Some (assoc c es) -> is_Some (del [c] (Dir es)).
Proof. cbn. intros [t ->]. eauto. Qed.

Lemma del_succeeds p : forall t,
  p <> [] -> is_Some (lookup p t) -> is_Some (del p t).
Proof.
  induction p as [| c p IH]; intros t Hp H; [congruence |].
  destruct t as [x | es]; [destruct H; discriminate |].
  cbn [lookup] in H. destruct (assoc c es) as [t1 |] eqn:Ha;
    [| destruct H; discriminate].
  destruct p as [| c1 p].
  - cbn. rewrite Ha. eauto.
  - rewrite del_cons_eq, Ha.
    destruct (IH t1 ltac:(discriminate) H) as [t1' ->]. eauto.
Qed.

Lemma lookup_del_same p : forall t t', del p t = Some t' -> lookup p t' = None.
Proof.
  induction p as [| c p IH]; intros t t' H; [destruct t; discriminate |].
  destruct p as [| c1 p].
  - apply del_single in H as (es & -> & ->). cbn [lookup].
    now rewrite assoc_del_entry, str_eqb_refl.
  - apply del_cons in H as (es & t1 & t1' & -> & Ha & Hd & ->); [| discriminate].
    cbn [lookup]. rewrite assoc_set_entry_same. now apply (IH t1).
Qed.

Lemma lookup_del_file_other p : forall t t' q y,
  del p t = Some t' -> ~ p `prefix_of` q ->
  lookup q t = Some (File y) -> lookup q t' = Some (File y).
Proof.
  induction p as [| c p IH]; intros t t' q y H Hpre Hq;
    [destruct t; discriminate |].
  destruct q as [| d q].
  { cbn in Hq. injection Hq as ->. destruct p; discriminate H. }
  destruct p as [| c1 p].
  - apply del_single in H as (es & -> & ->). cbn [lookup] in *.
    rewrite assoc_del_entry. destruct (str_eqb c d) eqn:E; [| assumption].
    apply str_eqb_eq in E. subst d. exfalso. apply Hpre. now exists q.
  - apply del_cons in H as (es & t1 & t1' & -> & Ha & Hd & ->); [| discriminate].
    cbn [lookup] in *. destruct (decide (c = d)) as [<- | Hne].
    + rewrite assoc_set_entry_same. rewrite Ha in Hq.
      apply (IH t1); try assumption.
      intros [k Hk]. apply Hpre. exists k. now rewrite Hk.
    + now rewrite assoc_set_entry_other.
Qed.

Lemma lookup_below_file p q t c n :
  lookup p t = Some (File c) -> p `prefix_of` q -> lookup q t = Some n -> q = p.
Proof.
  intros Hp [k ->] Hq. rewrite lookup_app, Hp in Hq.
  destruct k; [now rewrite app_nil_r | discriminate].
Qed.

Lemma put_parent p c n t t' :
  put (p ++ [c]) n t = Some t' -> isdir t p = true.
Proof.
  intros H. apply put_app in H as (t1 & t1' & H1 & H2 & _); [| discriminate].
  apply put_single in H2 as (es & -> & _). unfold isdir. now rewrite H1.
Qed.

(** One move of a regular file: when it succeeds, and what it does. *)
Lemma move_file_file fs src target_dir c r fs' :
  lookup src fs = Some (File c) ->
  os_path_join target_dir [basename src] <> src ->
  move_file fs (src, target_dir) = (r, fs') ->
  let target_path := os_path_join target_dir [basename src] in
  let dst := landing fs src target_dir in
  r = (if isdir fs target_path then negb (exists_ fs dst)
       else isdir fs target_dir) /\
  if r then
    lookup src fs' = None /\ lookup dst fs' = Some (File c) /\
    forall q y, q <> dst -> q <> src ->
      lookup q fs = Some (File y) -> lookup q fs' = Some (File y)
  else fs' = fs.
Proof.
  intros Hsrc Hne. unfold move_file, shutil_move, landing. rewrite Hsrc.
  cbv zeta. set (f := basename src).
  set (target_path := os_path_join target_dir [f]) in *.
  set (dst := if isdir fs target_path then os_path_join target_path [f]
              else target_path).
  assert (Hsucc : forall fs1,
            put dst (File c) fs = Some fs1 ->
            (forall es, lookup dst fs <> Some (Dir es)) -> dst <> src ->
            exists fs2, del src fs1 = Some fs2 /\
              lookup src fs2 = None /\ lookup dst fs2 = Some (File c) /\
              forall q y, q <> dst -> q <> src ->
                lookup q fs = Some (File y) -> lookup q fs2 = Some (File y)).
  { intros fs1 Hput Hnd Hds.
    assert (Hsrc1 : lookup src fs1 = Some (File c))
      by (apply (lookup_put_file_other dst c fs); auto).
    assert (Hsrc0 : src <> []).
    { intros ->. cbn in Hsrc. injection Hsrc as ->.
      apply put_is_dir in Hput as (? & ? & ? & _). discriminate. }
    destruct (del_succeeds src fs1 Hsrc0) as [fs2 Hdel]; [now rewrite Hsrc1 |].
    exists fs2. split; [assumption |].
    split; [now apply (lookup_del_same src fs1) |].
    assert (Hdst1 : lookup dst fs1 = Some (File c))
      by now apply (lookup_put_same dst _ fs).
    split.
    - apply (lookup_del_file_other src fs1); [assumption | | assumption].
      intros Hpre. apply Hds.
      now apply (lookup_below_file src dst fs1 c (File c)).
    - intros q y Hq1 Hq2 Hq.
      assert (Hq' : lookup q fs1 = Some (File y))
        by (apply (lookup_put_file_other dst c fs); auto).
      apply (lookup_del_file_other src fs1); [assumption | | assumption].
      intros Hpre. apply Hq2.
      now apply (lookup_below_file src q fs1 c (File y)). }
  destruct (isdir fs target_path) eqn:Ed; subst dst; cbv iota in Hsucc |- *.
  - set (dst := os_path_join target_path [f]) in *.
    destruct (exists_ fs dst) eqn:Ex; cbn [andb negb].
    + intros [= <- <-]. auto.
    + assert (Hnone : lookup dst fs = None)
        by (unfold exists_ in Ex; now destruct (lookup dst fs)).
      unfold isdir in Ed.
      destruct (lookup target_path fs) as [[x | es] |] eqn:El; try discriminate.
      destruct (put_succeeds target_path f (File c) fs es El) as [fs1 Hput].
      fold (os_path_join target_path [f]) in Hput. fold dst in Hput.
      rewrite Hput.
      destruct (Hsucc fs1 Hput) as (fs2 & -> & H); [congruence | congruence |].
      intros [= <- <-]. auto.
  - cbn [andb]. set (dst := target_path) in *.
    destruct (put dst (File c) fs) as [fs1 |] eqn:Hput.
    + assert (Hd : isdir fs target_dir = true) by exact (put_parent _ _ _ _ _ Hput).
      destruct (Hsucc fs1 eq_refl) as (fs2 & -> & H); [| assumption |].
      { intros es Hl. unfold isdir in Ed. now rewrite Hl in Ed. }
      intros [= <- <-]. rewrite Hd. auto.
    + intros [= <- <-]. split; [| reflexivity].
      destruct (isdir fs target_dir) eqn:Hd; [| reflexivity].
      unfold isdir in Hd.
      destruct (lookup target_dir fs) as [[x | es] |] eqn:El; try discriminate.
      destruct (put_succeeds target_dir f (File c) fs es El) as [fs1 Hput'].
      unfold dst, target_path, os_path_join in Hput. congruence.
Qed.

(** Binding a path leaves the files outside it as they are. *)
Lemma lookup_put_frame p n t t' q y :
  put p n t = Some t' -> ~ p `prefix_of` q ->
  lookup q t = Some (File y) -> lookup q t' = Some (File y).
Proof.
  intros Hput Hpre Hq.
  destruct (path_cases p q) as [-> | [(k & Hk & ->) | [(k & Hk & ->) | [H1 H2]]]].
  - exfalso. now apply Hpre.
  - exfalso. apply Hpre. now exists k.
  - exfalso. apply put_app in Hput as (t1 & t1' & H1 & H2 & _); [| assumption].
    apply put_is_dir in H2 as (es & _ & -> & _). congruence.
  - now rewrite (lookup_put_other p q n t t' Hput).
Qed.

(** One move and the files it does not concern. *)
Lemma move_file_frame fs src target_dir r fs' q y :
  move_file fs (src, target_dir) = (r, fs') ->
  ~ landing fs src target_dir `prefix_of` q -> ~ src `prefix_of` q ->
  lookup q fs = Some (File y) -> lookup q fs' = Some (File y).
Proof.
  unfold move_file, shutil_move, landing. cbv zeta.
  intros H Hdst Hsrc Hq.
  destruct (lookup src fs) as [n |]; [| now injection H as <- <-].
  match type of H with
  | context [if ?c then Raise _ else _] => destruct c
  end; [now injection H as <- <- |].
  match type of H with
  | context [put ?d n fs] => destruct (put d n fs) as [fs1 |] eqn:Hput
  end; [| now injection H as <- <-].
  destruct (del src fs1) as [fs2 |] eqn:Hdel; [| now injection H as <- <-].
  injection H as <- <-.
  apply (lookup_del_file_other src fs1); [assumption | assumption |].
  eapply lookup_put_frame; eassumption.
Qed.

Lemma move_arguments_spec U b files : forall move_args,
  move_arguments U b files = Ok move_args ->
  Forall2 (fun f a => a.1 = os_path_join b [f] /\
                      get_target_directory U f b = Ok a.2) files move_args.
Proof.
  unfold move_arguments. induction files as [| f files IH]; intros move_args.
  - cbn. intros [= <-]. constructor.
  - cbn [mapM]. destruct (get_target_directory U f b) as [p | e] eqn:Hp;
      cbn [bind]; [| discriminate].
    destruct (mapM _ files) as [rest | e]; cbn [bind]; [| discriminate].
    intros [= <-]. constructor; [now split | now apply IH].
Qed.

(** A move of another file leaves the file named [f0] where it is, in
    the source directory or in its bucket. *)
Lemma move_keeps U b f0 x y f a fs r fs1 q c :
  f <> f0 -> ~ In f first_levels -> In x first_levels ->
  a.1 = os_path_join b [f] -> get_target_directory U f b = Ok a.2 ->
  move_file fs a = (r, fs1) ->
  q = b ++ [f0] \/ q = b ++ [x; y; f0] \/ q = b ++ [x; y; f0; f0] ->
  lookup q fs = Some (File c) -> lookup q fs1 = Some (File c).
Proof.
  intros Hf Hfl Hx Ha1 Ha2 Hm Hq Hl. destruct a as [src target_dir].
  cbn [fst snd] in Ha1, Ha2. subst src.
  apply get_target_directory_shape in Ha2 as (x' & y' & ->).
  assert (Hfx : f <> x) by congruence.
  apply (move_file_frame _ _ _ _ _ q c Hm); [| | assumption].
  - unfold landing, os_path_join. rewrite basename_join.
    destruct (isdir fs _); rewrite <- ?app_assoc; cbn [app];
      intros Hp; destruct Hq as [-> | [-> | ->]];
      apply prefix_app_inv in Hp; destruct Hp as [k Hk];
      cbn in Hk; simplify_eq.
  - unfold os_path_join. intros Hp.
    destruct Hq as [-> | [-> | ->]]; apply prefix_app_inv in Hp;
      destruct Hp as [k Hk]; cbn in Hk; simplify_eq.
Qed.

(** The moves of other files leave the file named [f0] where it is. *)
Lemma moves_keep U b f0 x y c move_args : forall files fs results fs' q,
  Forall2 (fun f a => a.1 = os_path_join b [f] /\
                      get_target_directory U f b = Ok a.2) files move_args ->
  ~ In f0 files -> Forall (fun f => ~ In f first_levels) files ->
  In x first_levels ->
  executor_map fs move_args = (results, fs') ->
  q = b ++ [f0] \/ q = b ++ [x; y; f0] \/ q = b ++ [x; y; f0; f0] ->
  lookup q fs = Some (File c) -> lookup q fs' = Some (File c).
Proof.
  induction move_args as [| a rest IH]; intros files fs results fs' q Hall Hf0 Hfl Hx.
  - cbn. now intros [= <- <-].
  - apply Forall2_cons_inv_r in Hall as (f & files' & [Ha1 Ha2] & Hall & ->).
    apply Forall_cons in Hfl as [Hf Hfl].
    cbn [executor_map].
    destruct (move_file fs a) as [r fs1] eqn:Hm.
    destruct (executor_map fs1 rest) as [rs fs2] eqn:He.
    intros [= <- <-] Hq Hl.
    apply (IH files' fs1 rs fs2 q); try assumption.
    + intros Hin. apply Hf0. now right.
    + apply (move_keeps U b f0 x y f a fs r fs1 q c); try assumption.
      intros ->. apply Hf0. now left.
Qed.

(** The file named [f0] ends in the source directory or in its bucket. *)
Lemma moves_place U b f0 c move_args : forall files fs results fs',
  Forall2 (fun f a => a.1 = os_path_join b [f] /\
                      get_target_directory U f b = Ok a.2) files move_args ->
  NoDup files -> Forall (fun f => ~ In f first_levels) files ->
  In f0 files ->
  executor_map fs move_args = (results, fs') ->
  lookup (b ++ [f0]) fs = Some (File c) ->
  lookup (b ++ [f0]) fs' = Some (File c) \/
  exists p, get_target_directory U f0 b = Ok p /\
    (lookup (p ++ [f0]) fs' = Some (File c) \/
     lookup (p ++ [f0; f0]) fs' = Some (File c)).
Proof.
  induction move_args as [| a rest IH]; intros files fs results fs' Hall Hnd Hfl Hin.
  - apply Forall2_nil_inv_r in Hall. subst files. destruct Hin.
  - apply Forall2_cons_inv_r in Hall as (f & files' & [Ha1 Ha2] & Hall & ->).
    apply Forall_cons in Hfl as [Hf Hfl].
    apply NoDup_cons in Hnd as [Hnin Hnd].
    cbn [executor_map].
    destruct (move_file fs a) as [r fs1] eqn:Hm.
    destruct (executor_map fs1 rest) as [rs fs2] eqn:He.
    intros [= <- <-] Hl.
    destruct (decide (f = f0)) as [-> | Hne].
    + destruct a as [src target_dir]. cbn [fst snd] in Ha1, Ha2. subst src.
      pose proof (Hshape := Ha2).
      apply get_target_directory_shape in Hshape as (x & y & ->).
      pose proof (Htab := Ha2).
      apply get_target_directory_table in Htab as (k & groups & g & Hk & _ & Heq).
      assert (Hx : In x first_levels).
      { apply app_inv_head in Heq. injection Heq as -> _.
        exact (letter_groups_keys k groups Hk). }
      assert (Hn : ~ In f0 files') by (intros H; apply Hnin; now apply list_elem_of_In).
      assert (Hkeep : forall q,
                q = b ++ [f0] \/ q = b ++ [x; y; f0] \/ q = b ++ [x; y; f0; f0] ->
                lookup q fs1 = Some (File c) -> lookup q fs2 = Some (File c))
        by (intros q; apply (moves_keep U b f0 x y c rest files' fs1 rs fs2 q);
            assumption).
      pose proof (Hmove := move_file_file fs (os_path_join b [f0])
                             (os_path_join b [x; y]) c r fs1 Hl).
      unfold landing, os_path_join in Hmove, Hkeep |- *.
      rewrite basename_join in Hmove.
      destruct Hmove as [_ Hmove]; [| exact Hm |].
      { intros Heq'. apply (f_equal (@length _)) in Heq'.
        rewrite !length_app in Heq'. cbn in Heq'. lia. }
      destruct r.
      * destruct Hmove as (_ & Hdst & _). right. exists (b ++ [x; y]).
        split; [assumption |].
        destruct (isdir fs _); rewrite <- ?app_assoc in *; cbn [app] in *;
          [right | left]; apply Hkeep; auto.
      * subst fs1. left. apply Hkeep; auto.
    + destruct Hin as [Heq | Hin]; [congruence |].
      apply (IH files' fs1 rs fs2); try assumption.
      apply (move_keeps U b f0 (py "A") [] f a fs r fs1 (b ++ [f0]) c);
        try assumption; auto.
      vm_compute. auto.
Qed.

(** X8. A run that is not a simulation loses no file of a well-formed
    tree: every regular file of the source directory is afterwards, with
    its content, either still there or in the directory the classifier
    gives for its name (or inside a directory of its own name there). *)
Theorem no_file_lost (U : unicode) (fs : node) (source_dir : path)
  (success_count total_files : nat) (fs' : node) (f : str) (c : content) :
  wfb fs = true ->
  organize_files U fs source_dir false = Ok (success_count, total_files, fs') ->
  lookup (os_path_join source_dir [f]) fs = Some (File c) ->
  lookup (os_path_join source_dir [f]) fs' = Some (File c) \/
  exists p, get_target_directory U f source_dir = Ok p /\
    (lookup (os_path_join p [f]) fs' = Some (File c) \/
     lookup (os_path_join p [f; f]) fs' = Some (File c)).
Proof.
  intros Hwf Hrun Hl. unfold organize_files in Hrun.
  destruct (top_files fs source_dir) as [files | e] eqn:Htop; [| discriminate].
  cbn [bind negb] in Hrun.
  destruct (create_directories fs source_dir) as [fs1 | e] eqn:Hc; [| discriminate].
  cbn [bind] in Hrun.
  destruct (move_arguments U source_dir files) as [move_args | e] eqn:Hargs;
    [| discriminate].
  cbn [bind] in Hrun.
  destruct (executor_map fs1 move_args) as [results fs2] eqn:He.
  injection Hrun as _ _ <-.
  apply top_files_Ok in Htop as (es & Hes & ->).
  pose proof (Hfree := create_directories_free fs source_dir fs1).
  specialize (Hfree) with (1 := Hc).
  apply create_directories_frame in Hc as [[Hkeep _] _].
  unfold os_path_join in *.
  assert (Ha : assoc f es = Some (File c)).
  { rewrite lookup_app, Hes in Hl. cbn [lookup] in Hl.
    now destruct (assoc f es). }
  apply (moves_place U source_dir f c move_args (file_names es) fs1 results fs2).
  - now apply move_arguments_spec.
  - unfold file_names. apply NoDup_ListNoDup, List.NoDup_filter, NoDup_ListNoDup.
    apply (wfb_lookup _ _ _ Hwf) in Hes. now apply wfb_dir in Hes as [Hnd _].
  - apply Forall_forall. intros k Hk Hin. apply list_elem_of_In in Hk.
    apply filter_In in Hk as [_ Hk]. specialize (Hfree k Hin).
    pose proof (He' := isfile_entry fs source_dir es k Hes).
    unfold os_path_join in He'. congruence.
  - unfold file_names. apply filter_In. split.
    + apply assoc_In in Ha. unfold names. change f with (fst (f, File c)).
      now apply in_map.
    + unfold file_entry. now rewrite Ha.
  - assumption.
  - exact (Hkeep _ (File c) Hl).
Qed.

Lemma no_file_lost_witness :
  exists p, get_target_directory cpython (py "Qx") [py "m"] = Ok p /\
    lookup (os_path_join p [py "Qx"])
      (match organize_files cpython ex_flat [py "m"] false with
       | Ok r => r.2
       | Raise _ => ex_flat
       end) = Some (File Blob).
Proof.
  destruct (organize_files cpython ex_flat [py "m"] false) as [[[s t] fs'] | e] eqn:E;
    [| vm_compute in E; discriminate E].
  destruct (no_file_lost cpython ex_flat [py "m"] s t fs' (py "Qx") Blob
              eq_refl E eq_refl) as [H | (p & Hp & [H | H])].
  - exfalso. vm_compute in E. injection E as _ _ <-. vm_compute in H. discriminate H.
  - exists p. split; [assumption |]. exact H.
  - exfalso. vm_compute in Hp. injection Hp as <-.
    vm_compute in E. injection E as _ _ <-. vm_compute in H. discriminate H.
Defined.

(** *** Counting the files that left *)







(** *** The tallies of a dry run *)

Lemma dict_incr_lookup (d : gmap (list N) nat) (k k' : str) :
  default 0%nat (dict_incr d k !! k') =
  (default 0%nat (d !! k') + if bool_decide (k' = k) then 1 else 0)%nat.
Proof.
  unfold dict_incr. destruct (decide (k' = k)) as [-> | Hne].
  - rewrite lookup_insert_eq, bool_decide_eq_true_2 by reflexivity. reflexivity.
  - rewrite lookup_insert_ne by congruence.
    rewrite bool_decide_eq_false_2 by assumption. cbn. lia.
Qed.

Lemma counts_total_insert (d : gmap (list N) nat) (k : str) (n : nat) :
  d !! k = None -> counts_total (<[ k := n ]> d) = (n + counts_total d)%nat.
Proof.
  intros H. unfold counts_total. apply map_fold_insert_L; [| assumption].
  intros. lia.
Qed.

Lemma dict_incr_total (d : gmap (list N) nat) (k : str) :
  counts_total (dict_incr d k) = (counts_total d + 1)%nat.
Proof.
  unfold dict_incr. destruct (d !! k) as [v |] eqn:E; cbn.
  - rewrite <- (insert_delete_id d k v E), insert_insert_eq.
    rewrite !counts_total_insert by apply lookup_delete_eq. lia.
  - rewrite counts_total_insert by assumption. lia.
Qed.

Lemma count_key_cons {A : Type} (key : A -> option str) (k : str) (a : A) l :
  count_key key k (a :: l) =
  ((if bool_decide (key a = Some k) then 1 else 0) + count_key key k l)%nat.
Proof. unfold count_key. cbn [List.filter]. now destruct (bool_decide _). Qed.

Lemma target_keys (src b : path) (x y : str) :
  first_level_key (src, b ++ [x; y]) = Some x /\
  second_level_key (src, b ++ [x; y]) = Some (x ++ py "/" ++ y).
Proof.
  unfold first_level_key, second_level_key. cbn [snd].
  rewrite length_app. cbn [length].
  replace (2 <=? length b + 2)%nat with true by (symmetry; apply Nat.leb_le; lia).
  replace (length b + 2 - 2)%nat with (length b) by lia.
  rewrite app_nth2 by lia. rewrite Nat.sub_diag. cbn [nth].
  change [x; y] with ([x] ++ [y]). rewrite (app_assoc b [x] [y]), last_last. auto.
Qed.

Lemma tally_target_shape counts src (b : path) (x y : str) :
  tally_target counts (src, b ++ [x; y]) =
  (dict_incr counts.1 x, dict_incr counts.2 (x ++ py "/" ++ y)).
Proof.
  destruct counts as [c1 c2]. unfold tally_target.
  rewrite length_app. cbn [length].
  replace (2 <=? length b + 2)%nat with true by (symmetry; apply Nat.leb_le; lia).
  replace (length b + 2 - 2)%nat with (length b) by lia.
  rewrite app_nth2 by lia. rewrite Nat.sub_diag. cbn [nth].
  change [x; y] with ([x] ++ [y]). rewrite (app_assoc b [x] [y]), last_last. reflexivity.
Qed.

(** The loop that tallies the targets, from any state. *)
Lemma tally_loop b move_args : forall counts,
  Forall (fun a : path * path => exists x y,
            In x first_levels /\ a.2 = b ++ [x; y]) move_args ->
  let counts' := foldl tally_target counts move_args in
  (forall k, default 0%nat (counts'.1 !! k) =
             (default 0%nat (counts.1 !! k)
              + count_key first_level_key k move_args)%nat) /\
  (forall k, default 0%nat (counts'.2 !! k) =
             (default 0%nat (counts.2 !! k)
              + count_key second_level_key k move_args)%nat) /\
  counts_total counts'.1 = (counts_total counts.1 + length move_args)%nat /\
  counts_total counts'.2 = (counts_total counts.2 + length move_args)%nat /\
  ((forall k, is_Some (counts.1 !! k) -> In k first_levels) ->
   forall k, is_Some (counts'.1 !! k) -> In k first_levels).
Proof.
  induction move_args as [| a rest IH]; intros counts Hall.
  - cbn. unfold count_key. cbn. repeat split; auto.
  - apply Forall_cons in Hall as [(x & y & Hx & Ha) Hall].
    destruct a as [src tgt]. cbn [snd] in Ha. subst tgt.
    cbn [foldl]. rewrite tally_target_shape.
    specialize (IH (dict_incr counts.1 x, dict_incr counts.2 (x ++ py "/" ++ y)) Hall).
    cbv zeta in IH |- *. cbn [fst snd] in IH.
    destruct IH as (H1 & H2 & H3 & H4 & H5).
    destruct (target_keys src b x y) as [K1 K2].
    split; [| split; [| split; [| split]]].
    + intros k. rewrite H1, dict_incr_lookup, count_key_cons, K1.
      destruct (decide (k = x)) as [-> | Hne].
      * rewrite !bool_decide_eq_true_2 by reflexivity. lia.
      * rewrite !bool_decide_eq_false_2 by congruence. lia.
    + intros k. rewrite H2, dict_incr_lookup, count_key_cons, K2.
      destruct (decide (k = x ++ py "/" ++ y)) as [-> | Hne].
      * rewrite !bool_decide_eq_true_2 by reflexivity. lia.
      * rewrite !bool_decide_eq_false_2 by congruence. lia.
    + rewrite H3, dict_incr_total. cbn [length]. lia.
    + rewrite H4, dict_incr_total. cbn [length]. lia.
    + intros Hkeys. apply H5. intros k. unfold dict_incr.
      destruct (decide (k = x)) as [-> | Hne]; [auto |].
      rewrite lookup_insert_ne by congruence. apply Hkeys.
Qed.

(** X10. The tallies of a dry run. Every file is counted once at each
    level, under the first-level directory of its target and under the
    key first/second: the count of a key is the number of targets with
    that key, the counts of each level add up to the number of files,
    and the first-level keys are among the 28 first-level names. *)
Theorem dry_run_tallies (U : unicode) (source_dir : path) (files : list str)
  (move_args : list (path * path)) :
  move_arguments U source_dir files = Ok move_args ->
  let counts := tally_targets move_args in
  (forall k, default 0%nat (counts.1 !! k)
             = count_key first_level_key k move_args) /\
  (forall k, default 0%nat (counts.2 !! k)
             = count_key second_level_key k move_args) /\
  counts_total counts.1 = length files /\
  counts_total counts.2 = length files /\
  (forall k, is_Some (counts.1 !! k) -> In k first_levels).
Proof.
  intros Hargs. apply move_arguments_spec in Hargs.
  assert (Hlen : length move_args = length files)
    by (symmetry; eapply Forall2_length; eassumption).
  assert (Hall : Forall (fun a : path * path => exists x y,
                    In x first_levels /\ a.2 = source_dir ++ [x; y]) move_args).
  { clear Hlen. induction Hargs as [| f a files move_args [_ Ha] _ IH];
      constructor; [| assumption].
    apply get_target_directory_table in Ha as (k & groups & g & Hk & _ & Ha).
    exists k, (group_name g). split; [| assumption].
    exact (letter_groups_keys k groups Hk). }
  destruct (tally_loop source_dir move_args (∅, ∅) Hall)
    as (H1 & H2 & H3 & H4 & H5).
  unfold tally_targets. cbv zeta. cbn [fst snd] in *.
  split; [intros k; rewrite H1, lookup_empty; reflexivity |].
  split; [intros k; rewrite H2, lookup_empty; reflexivity |].
  split; [rewrite H3, Hlen; reflexivity |].
  split; [rewrite H4, Hlen; reflexivity |].
  apply H5. intros k [v Hv]. rewrite lookup_empty in Hv. discriminate.
Qed.

Lemma dry_run_tallies_witness :
  let move_args :=
    [([py "m"; py "abc"], [py "m"; py "A"; py "AA-AD"]);
     ([py "m"; py "ax"], [py "m"; py "A"; py "AU-AX"]);
     ([py "m"; py "7z"], [py "m"; py "0-9"; py "6-9"])] in
  let counts := tally_targets move_args in
  default 0%nat (counts.1 !! py "A") = 2%nat /\
  default 0%nat (counts.2 !! py "A/AU-AX") = 1%nat /\
  counts_total counts.1 = 3%nat.
Proof.
  destruct (dry_run_tallies cpython [py "m"] [py "abc"; py "ax"; py "7z"]
              [([py "m"; py "abc"], [py "m"; py "A"; py "AA-AD"]);
               ([py "m"; py "ax"], [py "m"; py "A"; py "AU-AX"]);
               ([py "m"; py "7z"], [py "m"; py "0-9"; py "6-9"])])
    as (H1 & H2 & H3 & _); [vm_compute; reflexivity |].
  cbv zeta in *. split; [| split].
  - rewrite H1. vm_compute. reflexivity.
  - rewrite H2. vm_compute. reflexivity.
  - exact H3.
Defined.

(** *** The command-line entry *)

Lemma organize_files_needs_dir U fs b dry r :
  organize_files U fs b dry = Ok r -> isdir fs b = true.
Proof.
  unfold organize_files.
  destruct (top_files fs b) as [files | e] eqn:Htop; [| discriminate].
  intros _. apply top_files_Ok in Htop as (es & Hes & _).
  unfold isdir. now rewrite Hes.
Qed.

Lemma organize_files_dry U fs b r :
  organize_files U fs b true = Ok r -> r.1.1 = 0%nat /\ r.2 = fs.
Proof.
  unfold organize_files.
  destruct (top_files fs b) as [files | e]; [| discriminate].
  cbn [bind negb].
  destruct (move_arguments U b files) as [move_args | e]; [| discriminate].
  cbn [bind]. intros [= <-]. auto.
Qed.

(** X11. The exit of organize_crates.py, with its log file outside
    the tree. A source directory that does not exist gives exit code 1
    and nothing is done. A source path that
    is a regular file passes the existence check and the run ends with
    the OSError of the listing. Whenever the run returns with the source
    present, the exit code is 0, whatever the number of files moved, the
    source is a directory, and a dry run leaves the tree as it was. *)
Theorem crates_main_exit (U : unicode) (fs : node) (args : crates_args) :
  let source_dir := args_source_dir args in
  (exists_ fs source_dir = false -> crates_main U fs args = Ok (1%nat, fs)) /\
  (isfile fs source_dir = true -> crates_main U fs args = Raise OSError) /\
  (forall code fs',
     exists_ fs source_dir = true ->
     crates_main U fs args = Ok (code, fs') ->
     code = 0%nat /\ isdir fs source_dir = true /\
     (args_dry_run args = true -> fs' = fs)).
Proof.
  cbv zeta. unfold crates_main. split; [| split].
  - now intros ->.
  - intros Hf. unfold isfile in Hf.
    destruct (lookup (args_source_dir args) fs) as [[c | es] |] eqn:E;
      try discriminate.
    unfold exists_. rewrite E. cbn [negb].
    unfold organize_files, top_files, listdir. now rewrite E.
  - intros code fs' ->. cbn [negb].
    destruct (organize_files U fs (args_source_dir args) (args_dry_run args))
      as [r | e] eqn:E; cbn [bind]; [| discriminate].
    intros [= <- <-]. split; [reflexivity |].
    split; [exact (organize_files_needs_dir _ _ _ _ _ E) |].
    intros Hdry. rewrite Hdry in E. now apply organize_files_dry in E.
Qed.

(** *** When the relocator returns *)






(** *** What provisioning creates *)

Lemma new_dirs_prefix p : forall q,
  is_Some (lookup q (new_dirs p)) -> q `prefix_of` p.
Proof.
  induction p as [| c p IH]; intros q H.
  - destruct q; [reflexivity |]. cbn in H. now destruct H.
  - destruct q as [| d q]; [apply prefix_nil |].
    cbn [new_dirs lookup assoc] in H.
    destruct (str_eqb d c) eqn:E; [| now destruct H].
    apply str_eqb_eq in E. subst d. apply prefix_cons. now apply IH.
Qed.

(** What [os.makedirs] adds lies along its path. *)
Lemma makedirs_new p : forall t t' q,
  makedirs p t = Ok t' -> is_Some (lookup q t') ->
  is_Some (lookup q t) \/ q `prefix_of` p.
Proof.
  induction p as [| c p IH]; intros t t' q.
  - rewrite makedirs_nil. discriminate.
  - destruct t as [x | es]; [discriminate |].
    rewrite makedirs_cons. destruct (assoc c es) as [t1 |] eqn:Ha.
    + destruct (makedirs p t1) as [t1' | e] eqn:E; cbn [bind]; [| discriminate].
      intros [= <-]. destruct q as [| d q]; [left; now eexists |].
      cbn [lookup]. destruct (decide (c = d)) as [<- | Hne].
      * rewrite assoc_set_entry_same, Ha. intros H.
        destruct (IH t1 t1' q E H) as [H1 | H1]; [now left |].
        right. now apply prefix_cons.
      * rewrite assoc_set_entry_other by assumption. now left.
    + intros [= <-]. destruct q as [| d q]; [left; now eexists |].
      cbn [lookup]. destruct (decide (c = d)) as [<- | Hne].
      * rewrite assoc_set_entry_same. intros H. right.
        apply prefix_cons. now apply new_dirs_prefix.
      * rewrite assoc_set_entry_other by assumption. now left.
Qed.

Lemma lookup_prefix p q t :
  is_Some (lookup p t) -> q `prefix_of` p -> is_Some (lookup q t).
Proof.
  intros H [k ->]. rewrite lookup_app in H.
  destruct (lookup q t); [eauto | now destruct H].
Qed.

(** The prefixes of a path of two components below [b]. *)
Lemma prefix_below (b q : path) (x y : str) :
  q `prefix_of` b ++ [x; y] ->
  q `prefix_of` b \/ q = b ++ [x] \/ q = b ++ [x; y].
Proof.
  intros H.
  destruct (prefix_weak_total q b (b ++ [x; y]) H) as [H1 | [k ->]];
    [now exists [x; y] | now left |].
  apply prefix_app_inv in H. destruct H as [k' Hk].
  destruct k as [| x' [| y' [| z k]]]; cbn in Hk; simplify_eq.
  - left. now rewrite app_nil_r.
  - right. now left.
  - right. now right.
Qed.

(** What provisioning may add to the tree [fs0]. *)
Lemma create_directories_new fs0 b fs fs' :
  is_Some (lookup b fs0) ->
  create_directories fs b = Ok fs' ->
  (forall q, is_Some (lookup q fs) -> is_Some (lookup q fs0) \/ bucket_dir b q) ->
  forall q, is_Some (lookup q fs') -> is_Some (lookup q fs0) \/ bucket_dir b q.
Proof.
  intros Hb Hc H0.
  set (R := fun (s s' : node) =>
              (forall q, is_Some (lookup q s) ->
                         is_Some (lookup q fs0) \/ bucket_dir b q) ->
              forall q, is_Some (lookup q s') ->
                        is_Some (lookup q fs0) \/ bucket_dir b q).
  assert (Hmk : forall k groups g p s s',
            In k first_levels -> get_letter_groups !! k = Some groups ->
            In g groups -> p `prefix_of` b ++ [k; group_name g] ->
            (if negb (exists_ s p) then makedirs p s else Ok s) = Ok s' ->
            R s s').
  { intros k groups g p s s' Hk Hg Hin Hp Hs Hold q Hq.
    destruct (negb (exists_ s p)); [| injection Hs as <-; auto].
    destruct (makedirs_new p s s' q Hs Hq) as [H1 | H1]; [auto |].
    assert (H2 : q `prefix_of` b ++ [k; group_name g])
      by (etransitivity; eassumption).
    apply prefix_below in H2 as [H2 | [-> | ->]].
    - left. now apply (lookup_prefix b).
    - right. exists k, groups. auto.
    - right. exists k, groups. split; [assumption |].
      split; [assumption |]. right. now exists g. }
  unfold create_directories in Hc.
  apply (foldM_post (create_first_level b) R (fun _ _ => True)) in Hc.
  - destruct Hc as [Hc _]. now apply Hc.
  - intros s Hold. exact Hold.
  - intros s1 s2 s3 H12 H23 Hold. auto.
  - auto.
  - intros s k s' Hk Hstep. split; [| exact I].
    unfold create_first_level in Hstep.
    pose proof (Hgs := first_levels_groups). rewrite Forall_forall in Hgs.
    destruct (Hgs k) as (g0 & groups & Hg); [now apply list_elem_of_In |].
    destruct (if negb _ then _ else _) as [s1 | e] eqn:E1; cbn [bind] in Hstep;
      [| discriminate].
    unfold getitem in Hstep. rewrite Hg in Hstep. cbn [bind] in Hstep.
    assert (H1 : R s s1).
    { apply (Hmk k (g0 :: groups) g0 (os_path_join b [k]) s s1);
        try assumption; [now left |].
      exists [group_name g0]. unfold os_path_join. now rewrite <- app_assoc. }
    apply (foldM_post (create_second_level (os_path_join b [k])) R
             (fun _ _ => True)) in Hstep.
    + destruct Hstep as [H2 _]. intros Hold. auto.
    + intros s0 Hold. exact Hold.
    + intros s2 s3 s4 H12 H23 Hold. auto.
    + auto.
    + intros s2 g s3 Hin Hstep2. split; [| exact I].
      unfold create_second_level in Hstep2. cbv zeta in Hstep2.
      apply (Hmk k (g0 :: groups) g
               (os_path_join (os_path_join b [k]) [group_name g]) s2 s3);
        try assumption.
      unfold os_path_join. now rewrite <- app_assoc.
Qed.

(** X13. Provisioning a source directory adds the directories of the
    layout and nothing else: every path that exists afterwards existed
    before, or is a first-level directory of the table or one of the
    second-level directories the table lists under it. *)
Theorem provisioning_creates_buckets (fs : node) (base_dir : path)
  (fs' : node) (q : path) :
  exists_ fs base_dir = true ->
  create_directories fs base_dir = Ok fs' ->
  exists_ fs' q = true ->
  exists_ fs q = true \/ bucket_dir base_dir q.
Proof.
  unfold exists_. intros Hb Hc Hq.
  destruct (create_directories_new fs base_dir fs fs') with (q := q)
    as [[n Hn] | H]; auto.
  - destruct (lookup base_dir fs); [eauto | discriminate].
  - destruct (lookup q fs'); [eauto | discriminate].
  - left. now rewrite Hn.
Qed.

Lemma provisioning_creates_buckets_witness :
  exists_ ex_flat [py "m"; py "Q"; py "QU-QX"] = true \/
  bucket_dir [py "m"] [py "m"; py "Q"; py "QU-QX"].
Proof.
  apply (provisioning_creates_buckets ex_flat [py "m"] ex_provisioned).
  - reflexivity.
  - vm_compute. reflexivity.
  - reflexivity.
Defined.

(** *** The files a run does not concern *)

(** One move leaves a file as it is, unless it is the file moved or
    stands where that file lands. *)
Lemma move_file_other fs src target_dir r fs' q y :
  move_file fs (src, target_dir) = (r, fs') ->
  lookup q fs = Some (File y) ->
  ~ src `prefix_of` q ->
  q <> target_dir ++ [basename src] ->
  q <> target_dir ++ [basename src; basename src] ->
  lookup q fs' = Some (File y).
Proof.
  intros Hm Hq Hsrc H1 H2.
  destruct r.
  2: { unfold move_file in Hm.
       destruct (shutil_move fs src _); [discriminate Hm |].
       now injection Hm as <-. }
  apply (move_file_frame fs src target_dir true fs' q y Hm); [| assumption..].
  unfold move_file, shutil_move in Hm. unfold landing, os_path_join in *.
  cbv zeta in Hm.
  destruct (lookup src fs) as [n |]; [| discriminate Hm].
  set (dst := target_dir ++ [basename src]) in *.
  intros [k Hk].
  assert (Hdir : forall p, q = p ++ k -> k <> [] -> isdir fs p = true).
  { intros p -> Hne. rewrite lookup_app in Hq. unfold isdir.
    destruct (lookup p fs) as [[c | es] |]; [| reflexivity | discriminate].
    destruct k; [congruence | discriminate]. }
  destruct (isdir fs dst) eqn:Ed.
  - assert (Hk0 : k <> []).
    { intros ->. rewrite app_nil_r in Hk. apply H2. subst dst.
      now rewrite <- app_assoc in Hk. }
    pose proof (Hd := Hdir _ Hk Hk0).
    assert (Hex : exists_ fs (dst ++ [basename src]) = true).
    { unfold exists_, isdir in *. now destruct (lookup (dst ++ _) fs). }
    rewrite Hex in Hm. discriminate Hm.
  - assert (Hk0 : k <> []) by (intros ->; rewrite app_nil_r in Hk; now apply H1).
    pose proof (Hd := Hdir _ Hk Hk0). congruence.
Qed.

Lemma executor_map_other U b q y move_args : forall files fs results fs',
  Forall2 (fun f a => a.1 = os_path_join b [f] /\
                      get_target_directory U f b = Ok a.2) files move_args ->
  Forall (fun f => ~ b ++ [f] `prefix_of` q /\
                   forall p, get_target_directory U f b = Ok p ->
                             q <> p ++ [f] /\ q <> p ++ [f; f]) files ->
  executor_map fs move_args = (results, fs') ->
  lookup q fs = Some (File y) -> lookup q fs' = Some (File y).
Proof.
  induction move_args as [| a rest IH]; intros files fs results fs' Hall Hq.
  - cbn. now intros [= <- <-].
  - apply Forall2_cons_inv_r in Hall as (f & files' & [Ha1 Ha2] & Hall & ->).
    apply Forall_cons in Hq as [[Hf1 Hf2] Hq].
    cbn [executor_map].
    destruct (move_file fs a) as [r fs1] eqn:Hm.
    destruct (executor_map fs1 rest) as [rs fs2] eqn:He.
    intros [= <- <-] Hl.
    apply (IH files' fs1 rs fs2 Hall Hq He).
    destruct a as [src tgt]. cbn [fst snd] in Ha1, Ha2. subst src.
    destruct (Hf2 tgt Ha2) as [H1 H2].
    apply (move_file_other fs (os_path_join b [f]) tgt r fs1 q y Hm);
      unfold os_path_join; rewrite ?basename_join; assumption.
Qed.

(** X14. What a run that is not a simulation leaves alone: a file that
    is neither a regular file of the source directory nor stands where
    one of them lands (in the directory the classifier gives for its
    name, or inside a directory of its name there) is after the run
    where it was, with its content. *)
Theorem relocator_frame (U : unicode) (fs : node) (source_dir : path)
  (success_count total_files : nat) (fs' : node) (q : path) (y : content) :
  organize_files U fs source_dir false = Ok (success_count, total_files, fs') ->
  lookup q fs = Some (File y) ->
  (forall f, isfile fs (os_path_join source_dir [f]) = true ->
     q <> os_path_join source_dir [f] /\
     forall p, get_target_directory U f source_dir = Ok p ->
       q <> os_path_join p [f] /\ q <> os_path_join p [f; f]) ->
  lookup q fs' = Some (File y).
Proof.
  intros Hrun Hq Hout. unfold organize_files in Hrun.
  destruct (top_files fs source_dir) as [files | e] eqn:Htop; [| discriminate].
  cbn [bind negb] in Hrun.
  destruct (create_directories fs source_dir) as [fs1 | e] eqn:Hc; [| discriminate].
  cbn [bind] in Hrun.
  destruct (move_arguments U source_dir files) as [move_args | e] eqn:Hargs;
    [| discriminate].
  cbn [bind] in Hrun.
  destruct (executor_map fs1 move_args) as [results fs2] eqn:He.
  injection Hrun as _ _ <-.
  apply top_files_Ok in Htop as (es & Hes & ->).
  apply create_directories_frame in Hc as [[Hkeep _] _].
  apply move_arguments_spec in Hargs.
  apply (executor_map_other U source_dir q y move_args (file_names es) fs1
           results fs2 Hargs); [| assumption | exact (Hkeep q (File y) Hq)].
  apply Forall_forall. intros f Hf. apply list_elem_of_In in Hf.
  apply filter_In in Hf as [_ Hf].
  assert (Hfile : isfile fs (os_path_join source_dir [f]) = true)
    by now rewrite (isfile_entry fs source_dir es f Hes).
  destruct (Hout f Hfile) as [H1 H2]. split; [| exact H2].
  intros Hpre. apply H1. unfold isfile, os_path_join in *.
  destruct (lookup (source_dir ++ [f]) fs) as [[c | es'] |] eqn:E;
    try discriminate.
  exact (lookup_below_file _ q fs c (File y) E Hpre Hq).
Qed.

Lemma relocator_frame_witness :
  let fs := Dir [(py "m",
                  Dir [(py "Qx", File Blob);
                       (py "sub", Dir [(py "keep", File (Text (py "k")))])])] in
  lookup [py "m"; py "sub"; py "keep"]
    (match organize_files cpython fs [py "m"] false with
     | Ok r => r.2
     | Raise _ => Dir []
     end) = Some (File (Text (py "k"))).
Proof.
  cbv zeta.
  destruct (organize_files cpython _ [py "m"] false) as [[[s t] fs'] | e] eqn:E;
    [| vm_compute in E; discriminate E].
  apply (relocator_frame cpython _ [py "m"] s t fs' _ _ E); [reflexivity |].
  intros f Hf. split.
  - intros Heq. apply (f_equal (@length _)) in Heq. discriminate Heq.
  - intros p Hp. apply get_target_directory_shape in Hp as (a & b & ->).
    split; intros Heq; apply (f_equal (@length _)) in Heq; discriminate Heq.
Defined.

(** *** The outcome of the moves *)













End RelocatorMore.

Import RelocatorMore.

(** ** The indexer *)

Module IndexerMore.

(** *** The search for an archive *)

Lemma first_match_split e w :
  match first_match e w with
  | None => Forall (fun en : walk_entry => ~ In e en.2) w
  | Some p =>
      exists before root dirs files after,
        w = before ++ (root, dirs, files) :: after /\
        p = os_path_join root [e] /\ In e files /\
        Forall (fun en : walk_entry => ~ In e en.2) before
  end.
Proof.
  induction w as [| [[root dirs] files] w IH]; cbn [first_match].
  - constructor.
  - destruct (List.find (fun file => str_eqb file e) files) as [file |] eqn:Hf.
    + apply find_name in Hf as [-> Hin].
      exists [], root, dirs, files, w. repeat split; [assumption | constructor].
    + assert (Hn : ~ In e files).
      { intros Hin. apply find_name_In in Hin. congruence. }
      destruct (first_match e w) as [p |].
      * destruct IH as (before & root' & dirs' & files' & after & -> & -> & Hin & Hb).
        exists ((root, dirs, files) :: before), root', dirs', files', after.
        repeat split; [assumption |]. apply Forall_cons. now split.
      * apply Forall_cons. now split.
Qed.

(** X17. The search for an archive returns the first directory of the
    walk of the mirror that lists a file with the expected name, joined
    with that name: the result lies under the mirror, no directory
    earlier in the walk lists the name, and the search returns nothing
    only when no directory of the walk lists it. *)
Theorem find_crate_file_first (fs : node) (crate_name version : str)
  (mirror_dir : path) :
  let expected := crate_filename crate_name version in
  match find_crate_file fs crate_name version mirror_dir with
  | None =>
      forall root dirs files,
        In (root, dirs, files) (os_walk fs mirror_dir) -> ~ In expected files
  | Some p =>
      basename p = expected /\ prefixb mirror_dir p = true /\
      exists before dirs files after,
        os_walk fs mirror_dir = before ++ (dirname p, dirs, files) :: after /\
        In expected files /\
        Forall (fun en : walk_entry => ~ In expected en.2) before
  end.
Proof.
  cbv zeta. unfold find_crate_file.
  pose proof (H := first_match_split (crate_filename crate_name version)
                     (os_walk fs mirror_dir)).
  destruct (first_match _ (os_walk fs mirror_dir)) as [p |].
  - destruct H as (before & root & dirs & files & after & Hw & -> & Hin & Hb).
    unfold os_path_join. rewrite basename_join, dirname_join.
    split; [reflexivity |]. split; [| now exists before, dirs, files, after].
    assert (Hroot : In (root, dirs, files) (os_walk fs mirror_dir))
      by (rewrite Hw; apply in_or_app; right; now left).
    apply os_walk_In in Hroot as (t & _ & Hroot).
    apply walk_roots in Hroot as [rel Hrel]. cbn [fst] in Hrel. subst root.
    rewrite <- app_assoc. apply prefixb_app.
  - rewrite Forall_forall in H. intros root dirs files Hin.
    apply list_elem_of_In in Hin. exact (H _ Hin).
Qed.

(** *** What a run writes *)

(** A line leaves the tree as it is, or writes one sidecar when the run
    is not a simulation. *)
Lemma process_line_write `{O : limits} U L f c m dry st line :
  let st' := process_line U L f c m dry st line in
  tree st' = tree st \/
  dry = false /\
  exists p s,
    endswith (basename p) sidecar_suffix = true /\
    open_write (tree st) p s = Ok (tree st').
Proof.
  pose proof (H := process_line_cases U L f c m dry st line). cbv zeta in *.
  destruct (record_of U L line) as [[md v] |]; [| left; tauto].
  destruct H as [_ H].
  destruct (find_crate_file _ _ _ _) as [p |]; [| left; tauto].
  destruct dry; [left; tauto |].
  destruct (open_write _ _ _) as [fs' |] eqn:Hw; [| left; tauto].
  right. split; [reflexivity |]. destruct H as [_ ->].
  eexists _, _. split; [| exact Hw].
  unfold os_path_join. rewrite basename_join. apply sidecar_filename_ends.
Qed.

(** What every write of a sidecar keeps, the run keeps. *)
Lemma run_writes `{O : limits} (P : node -> Prop) U L dry :
  (forall fs p s fs',
     P fs -> dry = false -> endswith (basename p) sidecar_suffix = true ->
     open_write fs p s = Ok fs' -> P fs') ->
  forall mirror_dir,
    (forall f c st lines,
       P (tree st) -> P (tree (process_lines U L f c mirror_dir dry st lines))) /\
    (forall fs f,
       P fs -> P (tree (process_metadata_file U L fs f mirror_dir dry))) /\
    (forall files st,
       P (tree st) -> P (tree (run_files U L mirror_dir dry st files))) /\
    (forall fs index_dir,
       P fs -> P (tree (organize_metadata U L fs index_dir mirror_dir dry))).
Proof.
  intros HP mirror_dir.
  assert (Hline : forall f c st line,
            P (tree st) -> P (tree (process_line U L f c mirror_dir dry st line))).
  { intros f c st line H.
    destruct (process_line_write U L f c mirror_dir dry st line)
      as [-> | (Hd & p & s & Hp & Hw)]; [assumption | eauto]. }
  assert (Hlines : forall f c st lines,
            P (tree st) -> P (tree (process_lines U L f c mirror_dir dry st lines))).
  { intros f c st lines. unfold process_lines. revert st.
    induction lines as [| line lines IH]; intros st H; [assumption |].
    cbn [fold_left]. auto. }
  assert (Hfile : forall fs f,
            P fs -> P (tree (process_metadata_file U L fs f mirror_dir dry))).
  { intros fs1 f H. unfold process_metadata_file.
    destruct (list_in _ _); [assumption |].
    destruct (isdir fs1 f); [assumption |].
    destruct (open_read fs1 f); [| assumption].
    now apply Hlines. }
  assert (Hfiles : forall files st,
            P (tree st) -> P (tree (run_files U L mirror_dir dry st files))).
  { unfold run_files. induction files as [| f files IH]; intros st H;
      [assumption |].
    cbn [fold_left]. apply IH. cbn [run_file tree]. auto. }
  repeat split; try assumption.
  intros fs index_dir H. unfold organize_metadata. now apply Hfiles.
Qed.

(** A simulation never changes the tree. *)
Lemma dry_run_tree `{O : limits} U L mirror_dir :
  (forall f c st lines,
     tree (process_lines U L f c mirror_dir true st lines) = tree st) /\
  (forall fs f, tree (process_metadata_file U L fs f mirror_dir true) = fs) /\
  (forall files st, tree (run_files U L mirror_dir true st files) = tree st) /\
  (forall fs index_dir,
     tree (organize_metadata U L fs index_dir mirror_dir true) = fs).
Proof.
  assert (H : forall fs0, _) by
    (intros fs0;
     exact (run_writes (fun fs => fs = fs0) U L true
              ltac:(intros; discriminate) mirror_dir)).
  repeat split.
  - intros f c st lines. now apply (H (tree st)).
  - intros fs f. now apply (H fs).
  - intros files st. now apply (H (tree st)).
  - intros fs index_dir. now apply (H fs).
Qed.

(** *** The counters *)

Lemma records_cons U L line lines :
  records U L (line :: lines) =
  ((if bool_decide (is_Some (record_of U L line)) then 1 else 0)
   + records U L lines)%nat.
Proof. unfold records. cbn [List.filter]. now destruct (bool_decide _). Qed.

Lemma process_line_counts `{O : limits} U L f c m dry st line :
  let st' := process_line U L f c m dry st line in
  let n := if bool_decide (is_Some (record_of U L line)) then 1%nat else 0%nat in
  total_count st' = (total_count st + n)%nat /\
  (success_count st <= success_count st' <= success_count st + n)%nat.
Proof.
  pose proof (H := process_line_cases U L f c m dry st line). cbv zeta in *.
  destruct (record_of U L line) as [[md v] |].
  - rewrite bool_decide_eq_true_2 by eauto. destruct H as [-> H].
    split; [lia |].
    destruct (find_crate_file _ _ _ _); [| destruct H as [-> _]; lia].
    destruct dry; [destruct H as [-> _]; lia |].
    destruct (open_write _ _ _); destruct H as [-> _]; lia.
  - rewrite bool_decide_eq_false_2 by (intros [? ?]; discriminate).
    destruct H as (-> & -> & _). lia.
Qed.

Lemma process_lines_counts `{O : limits} U L f c m dry lines : forall st,
  let st' := process_lines U L f c m dry st lines in
  total_count st' = (total_count st + records U L lines)%nat /\
  (success_count st <= success_count st'
   <= success_count st + records U L lines)%nat.
Proof.
  unfold process_lines. induction lines as [| line lines IH]; intros st.
  - cbn. unfold records. cbn. lia.
  - cbn [fold_left]. cbv zeta in *.
    destruct (IH (process_line U L f c m dry st line)) as [H1 H2].
    destruct (process_line_counts U L f c m dry st line) as [H3 H4].
    rewrite records_cons. lia.
Qed.

Lemma process_metadata_file_counts `{O : limits} U L fs f m dry :
  let r := process_metadata_file U L fs f m dry in
  total_count r = versions_of U L fs f /\
  (success_count r <= total_count r)%nat.
Proof.
  cbv zeta. unfold process_metadata_file, versions_of.
  destruct (list_in _ _); [cbn; lia |].
  destruct (isdir fs f); [cbn; lia |].
  destruct (open_read fs f) as [text | e]; [| cbn; lia].
  destruct (process_lines_counts U L f (basename f) m dry (readlines text)
              (Tally 0 0 fs [])) as [H1 H2].
  cbn [total_count success_count] in *. lia.
Qed.

Lemma run_files_counts `{O : limits} U L m dry files : forall st,
  (success_count st <= total_count st)%nat ->
  let st' := run_files U L m dry st files in
  (success_count st' <= total_count st')%nat.
Proof.
  unfold run_files. induction files as [| f files IH]; intros st H;
    [assumption |].
  cbn [fold_left]. apply IH. cbn [run_file success_count total_count].
  destruct (process_metadata_file_counts U L (tree st) f m dry) as [_ H2]. lia.
Qed.

Lemma run_files_dry_total `{O : limits} U L m files : forall st,
  total_count (run_files U L m true st files) =
  (total_count st + list_sum (map (versions_of U L (tree st)) files))%nat.
Proof.
  unfold run_files. induction files as [| f files IH]; intros st.
  - cbn. lia.
  - cbn [fold_left map list_sum]. rewrite IH.
    cbn [run_file total_count tree].
    destruct (dry_run_tree U L m) as (_ & Hf & _). rewrite Hf.
    destruct (process_metadata_file_counts U L (tree st) f m true) as [-> _].
    unfold list_sum. cbn [fold_right]. lia.
Qed.

(** X18. The counters of the indexer. The total a metadata file reports
    is the number of its lines that hold a version record, whatever the
    mirror holds and whether or not the run is a simulation, and its
    successes never exceed it; the same bound holds for the whole run;
    and the total of a simulation is the sum over the enumerated files. *)
Theorem run_counts `{O : limits} (U : unicode) (L : json_lib) (fs : node)
  (index_dir mirror_dir : path) (dry : bool) :
  (forall f,
     let r := process_metadata_file U L fs f mirror_dir dry in
     total_count r = versions_of U L fs f /\
     (success_count r <= total_count r)%nat) /\
  (let r := organize_metadata U L fs index_dir mirror_dir dry in
   (success_count r <= total_count r)%nat) /\
  total_count (organize_metadata U L fs index_dir mirror_dir true) =
  list_sum (map (versions_of U L fs) (metadata_files fs index_dir)).
Proof.
  split; [| split].
  - intros f. apply process_metadata_file_counts.
  - cbv zeta. unfold organize_metadata. apply run_files_counts. cbn. lia.
  - unfold organize_metadata. now rewrite run_files_dry_total.
Qed.

(** X19. A run writes sidecars and nothing else. Every file whose name
    does not end in .metadata.json is after the run where it was, with
    its content, and no file with such a name is new; the directories
    are those there were; and a simulation leaves the whole tree as it
    was. *)
Theorem only_sidecars_written `{O : limits} (U : unicode) (L : json_lib) (fs : node)
  (index_dir mirror_dir : path) (dry : bool) :
  let fs' := tree (organize_metadata U L fs index_dir mirror_dir dry) in
  (forall q y,
     endswith (basename q) sidecar_suffix = false ->
     (lookup q fs' = Some (File y) <-> lookup q fs = Some (File y))) /\
  (forall q, isdir fs' q = isdir fs q) /\
  (dry = true -> fs' = fs).
Proof.
  cbv zeta. split; [| split].
  - intros q y Hq.
    destruct (run_writes
                (fun t => lookup q t = Some (File y) <-> lookup q fs = Some (File y))
                U L dry) with (mirror_dir := mirror_dir) as (_ & _ & _ & H).
    + intros t p s t' Ht _ Hp Hw. apply open_write_Ok in Hw as (Hno & Hput & Hwr).
      assert (Hne : q <> p) by congruence.
      rewrite <- Ht. split.
      * now apply (lookup_put_file_new p (Text s) t).
      * now apply (lookup_put_file_other p (Text s) t).
    + now apply H.
  - intros q.
    destruct (run_writes (fun t => isdir t q = isdir fs q) U L dry)
      with (mirror_dir := mirror_dir) as (_ & _ & _ & H).
    + intros t p s t' Ht _ _ Hw. apply open_write_Ok in Hw as (Hno & Hput & Hwr).
      rewrite <- Ht. now apply (isdir_put_file p (Text s)).
    + now apply H.
  - intros ->. apply dry_run_tree.
Qed.

(** *** An index under an excluded name *)

Lemma path_str_app (p q : path) :
  p <> [] -> exists s, path_str (p ++ q) = path_str p ++ s.
Proof.
  induction p as [| c p IH]; intros Hp; [congruence |].
  destruct p as [| c' p].
  - destruct q as [| d q]; cbn [app path_str].
    + exists []. now rewrite app_nil_r.
    + now exists (os_sep ++ path_str (d :: q)).
  - destruct IH as [s Hs]; [discriminate |].
    exists s. change ((c :: c' :: p) ++ q) with (c :: (c' :: p) ++ q).
    change (path_str (c :: (c' :: p) ++ q))
      with (c ++ os_sep ++ path_str ((c' :: p) ++ q)).
    change (path_str (c :: c' :: p)) with (c ++ os_sep ++ path_str (c' :: p)).
    rewrite Hs. now rewrite <- !app_assoc.
Qed.

Lemma excluded_below (index_dir rel : path) (d : str) :
  In d excluded_dirs -> str_in d (path_str index_dir) = true ->
  excluded (index_dir ++ rel) = true.
Proof.
  intros Hd Hin. unfold excluded. apply existsb_exists. exists d.
  split; [assumption |].
  destruct (path_str_app index_dir rel) as [s ->].
  - intros ->. cbn [path_str] in Hin.
    repeat (destruct Hd as [<- | Hd]; [discriminate Hin |]). destruct Hd.
  - now apply str_in_app_l.
Qed.

Lemma collect_excluded (w : list walk_entry) :
  Forall (fun e : walk_entry => excluded e.1.1 = true) w -> collect w = [].
Proof.
  induction 1 as [| [[root dirs] files] w Hx _ IH]; [reflexivity |].
  cbn [collect flat_map]. cbn [fst] in Hx. rewrite Hx. exact IH.
Qed.

(** X20. When the path of the index itself contains one of the six
    excluded names as a substring, every directory of its walk is
    skipped: no metadata file is enumerated and the run reports 0 of 0
    and changes nothing. *)
Theorem excluded_index `{O : limits} (U : unicode) (L : json_lib) (fs : node)
  (index_dir mirror_dir : path) (dry : bool) (d : str) :
  In d excluded_dirs -> str_in d (path_str index_dir) = true ->
  metadata_files fs index_dir = [] /\
  organize_metadata U L fs index_dir mirror_dir dry = Tally 0 0 fs [].
Proof.
  intros Hd Hin.
  assert (H : metadata_files fs index_dir = []).
  { unfold metadata_files. apply collect_excluded, Forall_forall.
    intros e He. apply list_elem_of_In, os_walk_In in He as (t & _ & He).
    apply walk_roots in He as [rel ->]. now apply (excluded_below _ _ d). }
  split; [assumption |]. unfold organize_metadata. now rewrite H.
Qed.

Lemma excluded_index_witness :
  let fs := Dir [(py "pip-index", index_of (py "fo") line_1);
                 (py "mirror", bucket [])] in
  organize_metadata cpython mini_json fs [py "pip-index"] ex_mirror false
  = Tally 0 0 fs [].
Proof.
  apply (excluded_index cpython mini_json _ [py "pip-index"] ex_mirror false
           (py "pip")).
  - cbn. tauto.
  - reflexivity.
Defined.

(** *** The order of the files *)






(** *** A mirror without archives *)

Lemma first_match_none e w :
  Forall (fun en : walk_entry => ~ In e en.2) w -> first_match e w = None.
Proof.
  intros H. pose proof (Hs := first_match_split e w).
  destruct (first_match e w) as [p |]; [| reflexivity].
  destruct Hs as (before & root & dirs & files & after & -> & _ & Hin & _).
  apply Forall_app in H as [_ H]. apply Forall_cons in H as [H _].
  now destruct H.
Qed.

Lemma run_without_finds `{O : limits} U L m dry fs :
  (forall c v, find_crate_file fs c v m = None) ->
  forall files st,
    tree st = fs ->
    let st' := run_files U L m dry st files in
    tree st' = fs /\ success_count st' = success_count st.
Proof.
  intros Hnone.
  assert (Hline : forall f c st line,
            tree st = fs ->
            let st' := process_line U L f c m dry st line in
            tree st' = fs /\ success_count st' = success_count st).
  { intros f c st line Ht.
    pose proof (H := process_line_cases U L f c m dry st line). cbv zeta in *.
    destruct (record_of U L line) as [[md v] |].
    - destruct H as [_ H]. rewrite Ht, Hnone in H. destruct H as [-> ->]. auto.
    - destruct H as (-> & _ & ->). auto. }
  assert (Hlines : forall f c lines st,
            tree st = fs ->
            let st' := process_lines U L f c m dry st lines in
            tree st' = fs /\ success_count st' = success_count st).
  { intros f c lines. unfold process_lines.
    induction lines as [| line lines IH]; intros st Ht; [auto |].
    cbn [fold_left]. cbv zeta in *.
    destruct (Hline f c st line Ht) as [H1 H2].
    destruct (IH _ H1) as [H3 H4]. split; congruence. }
  assert (Hfile : forall f,
            let r := process_metadata_file U L fs f m dry in
            tree r = fs /\ success_count r = 0%nat).
  { intros f. cbv zeta. unfold process_metadata_file.
    destruct (list_in _ _); [auto |].
    destruct (isdir fs f); [auto |].
    destruct (open_read fs f) as [text | e]; [| auto].
    now apply (Hlines f (basename f) (readlines text) (Tally 0 0 fs [])). }
  unfold run_files. induction files as [| f files IH]; intros st Ht; [auto |].
  cbn [fold_left]. cbv zeta in *.
  destruct (Hfile f) as [H1 H2].
  destruct (IH (run_file U L m dry st f)) as [H3 H4].
  - cbn [run_file tree]. now rewrite Ht.
  - split; [assumption |]. rewrite H4. cbn [run_file success_count].
    rewrite Ht, H2. lia.
Qed.

(** X22. When no directory of the walk of the mirror lists a file whose
    name ends in .crate (an empty mirror, or a mirror path that is a
    regular file), the run reports no success and leaves the tree as it
    was. *)
Theorem run_without_archives `{O : limits} (U : unicode) (L : json_lib) (fs : node)
  (index_dir mirror_dir : path) (dry : bool) :
  Forall (fun en : walk_entry =>
            Forall (fun file => endswith file (py ".crate") = false) en.2)
         (os_walk fs mirror_dir) ->
  let r := organize_metadata U L fs index_dir mirror_dir dry in
  tree r = fs /\ success_count r = 0%nat.
Proof.
  intros H. cbv zeta. unfold organize_metadata.
  apply (run_without_finds U L mirror_dir dry fs); [| reflexivity].
  intros c v. unfold find_crate_file. apply first_match_none.
  eapply Forall_impl; [exact H |]. intros en Hen Hin. cbn beta in Hen.
  rewrite Forall_forall in Hen. apply list_elem_of_In in Hin.
  specialize (Hen _ Hin). now rewrite crate_filename_ends in Hen.
Qed.

Lemma run_without_archives_witness :
  let fs := Dir [(py "index", index_of (py "fo") line_1);
                 (py "mirror", File Blob)] in
  let r := organize_metadata cpython mini_json fs ex_index ex_mirror false in
  tree r = fs /\ success_count r = 0%nat.
Proof.
  apply (run_without_archives cpython mini_json _ ex_index ex_mirror false).
  constructor.
Defined.


(** *** Running again *)



(** *** The log *)

Lemma not_found_app l1 l2 : not_found (l1 ++ l2) = (not_found l1 + not_found l2)%nat.
Proof. unfold not_found. now rewrite List.filter_app, length_app. Qed.

Lemma metadata_errors_app l1 l2 :
  metadata_errors (l1 ++ l2) = (metadata_errors l1 + metadata_errors l2)%nat.
Proof. unfold metadata_errors. now rewrite List.filter_app, length_app. Qed.

Lemma not_found_logged e st :
  not_found (log (logged e st)) =
  (not_found (log st)
   + match e with CrateNotFound _ _ => 1 | _ => 0 end)%nat.
Proof. cbn [logged log]. rewrite not_found_app. now destruct e. Qed.

Lemma metadata_errors_logged e st :
  metadata_errors (log (logged e st)) =
  (metadata_errors (log st)
   + match e with MetadataError _ => 1 | _ => 0 end)%nat.
Proof. cbn [logged log]. rewrite metadata_errors_app. now destruct e. Qed.

(** What one line adds to the counters and to the log. *)
Lemma process_line_log_counts `{O : limits} U L f c m dry st line :
  let st' := process_line U L f c m dry st line in
  exists ds dt dn de,
    success_count st' = (success_count st + ds)%nat /\
    total_count st' = (total_count st + dt)%nat /\
    not_found (log st') = (not_found (log st) + dn)%nat /\
    metadata_errors (log st') = (metadata_errors (log st) + de)%nat /\
    (dt <= ds + dn + de)%nat /\
    (dry = true -> dt = (ds + dn)%nat).
Proof.
  cbv zeta. unfold process_line.
  assert (Hsame : exists ds dt dn de,
            success_count st = (success_count st + ds)%nat /\
            total_count st = (total_count st + dt)%nat /\
            not_found (log st) = (not_found (log st) + dn)%nat /\
            metadata_errors (log st) = (metadata_errors (log st) + de)%nat /\
            (dt <= ds + dn + de)%nat /\ (dry = true -> dt = (ds + dn)%nat))
    by (exists 0%nat, 0%nat, 0%nat, 0%nat; repeat split; lia).
  destruct (bool_decide (strip U line = [])); [exact Hsame |].
  destruct (negb _); [exact Hsame |].
  destruct (loads L line) as [md |].
  2: { exists 0%nat, 0%nat, 0%nat, 0%nat.
       rewrite not_found_logged, metadata_errors_logged.
       cbn [logged success_count total_count]. repeat split; lia. }
  destruct (get md (py "vers")) as [[version |] | e].
  3: { exists 0%nat, 0%nat, 0%nat, 1%nat.
       rewrite not_found_logged, metadata_errors_logged.
       cbn [logged success_count total_count]. repeat split; lia. }
  2: exact Hsame.
  destruct (negb (truthy version)); [exact Hsame |].
  cbn [tree].
  destruct (find_crate_file _ _ _ _) as [p |].
  2: { exists 0%nat, 1%nat, 1%nat, 0%nat.
       rewrite not_found_logged, metadata_errors_logged.
       cbn [logged success_count total_count log]. repeat split; lia. }
  destruct dry; cbn [negb].
  { exists 1%nat, 1%nat, 0%nat, 0%nat.
    cbn [success_count total_count log]. repeat split; lia. }
  destruct (open_write _ _ _) as [fs' | e].
  - exists 1%nat, 1%nat, 0%nat, 0%nat.
    cbn [success_count total_count log]. repeat split; lia.
  - exists 0%nat, 1%nat, 0%nat, 1%nat.
    rewrite not_found_logged, metadata_errors_logged.
    cbn [logged success_count total_count log]. repeat split; lia.
Qed.


Lemma process_lines_accounted `{O : limits} U L f c m dry lines : forall st,
  accounted dry st -> accounted dry (process_lines U L f c m dry st lines).
Proof.
  unfold process_lines. induction lines as [| line lines IH]; intros st H;
    [assumption |].
  cbn [fold_left]. apply IH. destruct H as [H1 H2]. unfold accounted.
  destruct (process_line_log_counts U L f c m dry st line)
    as (ds & dt & dn & de & -> & -> & -> & -> & H3 & H4).
  split; [lia |]. intros Hd. specialize (H2 Hd). specialize (H4 Hd). lia.
Qed.

Lemma process_metadata_file_accounted `{O : limits} U L fs f m dry :
  accounted dry (process_metadata_file U L fs f m dry).
Proof.
  assert (H0 : forall l, not_found l = 0%nat -> accounted dry (Tally 0 0 fs l)).
  { intros l Hl. split; cbn [total_count success_count log]; lia. }
  unfold process_metadata_file.
  destruct (list_in _ _); [now apply H0 |].
  destruct (isdir fs f); [now apply H0 |].
  destruct (open_read fs f) as [text | e]; [| now apply H0].
  apply process_lines_accounted. now apply H0.
Qed.

Lemma run_files_accounted `{O : limits} U L m dry files : forall st,
  accounted dry st -> accounted dry (run_files U L m dry st files).
Proof.
  unfold run_files. induction files as [| f files IH]; intros st H;
    [assumption |].
  cbn [fold_left]. apply IH. destruct H as [H1 H2].
  destruct (process_metadata_file_accounted U L (tree st) f m dry) as [H3 H4].
  unfold accounted. cbn [run_file success_count total_count log].
  rewrite not_found_app, metadata_errors_app. split; [lia |].
  intros Hd. specialize (H2 Hd). specialize (H4 Hd). lia.
Qed.

(** X25. Every version the indexer counts is accounted for: it is a
    success, or it left a warning that its archive was not found, or an
    error in the log. The total never exceeds the successes plus these
    warnings and errors, and in a simulation it is exactly the successes
    plus the warnings. *)
Theorem versions_accounted `{O : limits} (U : unicode) (L : json_lib) (fs : node)
  (index_dir mirror_dir : path) (dry : bool) :
  let r := organize_metadata U L fs index_dir mirror_dir dry in
  (total_count r
   <= success_count r + not_found (log r) + metadata_errors (log r))%nat /\
  (dry = true -> total_count r = (success_count r + not_found (log r))%nat).
Proof.
  cbv zeta. unfold organize_metadata.
  apply (run_files_accounted U L mirror_dir dry). split; cbn; lia.
Qed.

End IndexerMore.
